(** * cadata-converter: the binary layout decoder and frame extractor

    A shallow embedding of [read-data.py]: the five functions
    [read_width_and_height], [read_timestamp], [read_frame],
    [read_file_info] and [read_data], over an explicit model of the
    [os] file-descriptor calls, of [struct.unpack], and of Python's
    binary64 arithmetic (through the IEEE 754 specification of the
    Standard Library, [SpecFloat]). *)

From Stdlib Require Import ZArith Lia Bool List SpecFloat.
From Stdlib.Strings Require Import Byte.
From Stdlib Require String Ascii DecimalString DecimalNat.
From stdpp Require Import base option list gmap.

Local Open Scope Z_scope.

(** ** Python exceptions and results *)

Module Py.

(** The exception classes the program can meet.  [IOError] is an alias of
    [OSError] in Python 3; [struct.error] derives from [Exception] only. *)
Inductive exn :=
  | OSError
  | ValueError
  | StructError
  | ZeroDivisionError
  | OverflowError
  | MemoryError
  | UnboundLocalError
  | OtherError.

#[global] Instance exn_eq_dec : EqDecision exn.
Proof. solve_decision. Defined.

Inductive result (A : Type) :=
  | Ok (a : A)
  | Raise (e : exn).
Arguments Ok {A} a.
Arguments Raise {A} e.

(** *** [struct.unpack] of one unsigned little-endian integer *)

Definition byte_val (b : byte) : Z := Z.of_N (Byte.to_N b).

Fixpoint le_uint (bs : list byte) : Z :=
  match bs with
  | [] => 0
  | b :: r => byte_val b + 256 * le_uint r
  end.

(** [struct.unpack(fmt, bs)[0]] for a format of one unsigned integer of
    [size] bytes: the buffer must have exactly [size] bytes. *)
Definition struct_unpack_uint (size : nat) (bs : list byte) : result Z :=
  if decide (length bs = size) then Ok (le_uint bs) else Raise StructError.

(** Format ['H']: native order and size, two bytes; the host is taken to
    be little-endian. *)
Definition struct_unpack_H := struct_unpack_uint 2.
(** Format ['<I']: little-endian, four bytes. *)
Definition struct_unpack_I := struct_unpack_uint 4.

(** *** binary64 floats *)

Definition prec : Z := 53.
Definition emax : Z := 1024.
Abbreviation float := spec_float.

(** [float(z)] for an [int]: rounded to nearest even, [OverflowError]
    when out of range. *)
Definition Z2F (z : Z) : float := binary_normalize prec emax z 0 false.

Definition float_of_int (z : Z) : result float :=
  match Z2F z with
  | S754_infinity _ => Raise OverflowError
  | f => Ok f
  end.

(** [a / b] on two [int]s: the correctly rounded quotient. *)
Definition int_truediv (a b : Z) : result float :=
  if b =? 0 then Raise ZeroDivisionError
  else
    let s := xorb (a <? 0) (b <? 0) in
    if a =? 0 then Ok (S754_zero s)
    else
      let '(q, e, l) := SFdiv_core_binary prec emax (Z.abs a) 0 (Z.abs b) 0 in
      match binary_round_aux prec emax s q e l with
      | S754_infinity _ => Raise OverflowError
      | f => Ok f
      end.

Definition is_zero (f : float) : bool :=
  match f with S754_zero _ => true | _ => false end.

Definition float_mul (x y : float) : float := SFmul prec emax x y.

Definition float_truediv (x y : float) : result float :=
  if is_zero y then Raise ZeroDivisionError else Ok (SFdiv prec emax x y).

(** [i * x] and [x / i] with [i] an [int] and [x] a [float]: the [int]
    is converted first. *)
Definition int_mul_float (i : Z) (x : float) : result float :=
  match float_of_int i with
  | Ok fi => Ok (float_mul fi x)
  | Raise e => Raise e
  end.

Definition float_div_int (x : float) (i : Z) : result float :=
  match float_of_int i with
  | Ok fi => float_truediv x fi
  | Raise e => Raise e
  end.

(** [int(x)]: truncation toward zero. *)
Definition int_of_float (x : float) : result Z :=
  match x with
  | S754_zero _ => Ok 0
  | S754_finite s m e =>
      let t := Z.shiftl (Z.pos m) e in
      Ok (if s then - t else t)
  | S754_infinity _ => Raise OverflowError
  | S754_nan => Raise ValueError
  end.

(** A decimal literal [m * 10^e], correctly rounded. *)
Definition literal (m e : Z) : float :=
  if 0 <=? e then Z2F (m * 10 ^ e)
  else match int_truediv m (10 ^ (- e)) with
       | Ok f => f
       | Raise _ => S754_nan
       end.

Definition F1e6 : float := Eval vm_compute in literal 1 6.
Definition F1e_6 : float := Eval vm_compute in literal 1 (-6).

Definition is_finite (f : float) : bool :=
  match f with
  | S754_zero _ | S754_finite _ _ _ => true
  | _ => false
  end.

End Py.
Import Py.

(** ** The file-descriptor calls of module [os] *)

Module OS.

Record fd := mkfd { contents : list byte; offset : Z }.

Definition size (fh : fd) : Z := Z.of_nat (length (contents fh)).

(** A computation on an open descriptor: it fails with an exception or
    returns a value and the descriptor with its new position. *)
Definition io (A : Type) : Type := fd -> result (A * fd).

Definition ret {A} (a : A) : io A := fun fh => Ok (a, fh).

Definition bind {A B} (c : io A) (k : A -> io B) : io B :=
  fun fh =>
    match c fh with
    | Ok (a, fh') => k a fh'
    | Raise e => Raise e
    end.

Definition lift {A} (r : result A) : io A :=
  fun fh =>
    match r with
    | Ok a => Ok (a, fh)
    | Raise e => Raise e
    end.

(** [os.open(path, os.O_RDONLY)]: a path with no file behind it is [None]. *)
Definition open (file : option (list byte)) : result fd :=
  match file with
  | Some c => Ok (mkfd c 0)
  | None => Raise OSError
  end.

Inductive whence := SEEK_SET | SEEK_CUR | SEEK_END.

(** The largest offset every file system accepts: the size limit of a
    file without large-file support. *)
Definition OFFSET_MAX : Z := 2 ^ 31 - 1.

(** [os.lseek(fd, pos, how)]: the new position, [OSError] (EINVAL) when it
    would be negative; seeking past the end is allowed.  The limits of
    the host are not modelled: there an argument outside 64 bits gives
    [OverflowError], and a position above what the file system accepts
    ([2^44 - 4096] on ext4, [OFFSET_MAX] at least) gives [OSError].  The
    positions the program computes from a file that exists stay within
    them; a theorem about an offset the caller chooses states its
    range. *)
Definition lseek (pos : Z) (how : whence) : io Z :=
  fun fh =>
    let base :=
      match how with
      | SEEK_SET => 0
      | SEEK_CUR => offset fh
      | SEEK_END => size fh
      end in
    let p := base + pos in
    if p <? 0 then Raise OSError
    else Ok (p, mkfd (contents fh) p).

(** The largest [Py_ssize_t], and the largest [bytes] object: its header
    takes 33 bytes. *)
Definition SSIZE_MAX : Z := 2 ^ 63 - 1.
Definition BYTES_MAX : Z := SSIZE_MAX - 33.

(** The largest buffer the host allocates.  [os.read] allocates the [n]
    bytes asked for before it reads, and Linux refuses one allocation
    above the memory of the host.  The limit is taken to be [2^32]
    bytes, which covers the largest frame an attribute file can describe
    (65535 x 65535 pixels); a host with more memory fails later, at a
    count no theorem below relies on. *)
Definition BUFFER_MAX : Z := 2 ^ 32.

(** The most one call of [read] transfers on Linux ([0x7ffff000]). *)
Definition RW_COUNT_MAX : Z := 2147479552.

(** [os.read(fd, n)]: at most [n] bytes from the current position, fewer
    (down to none) at the end of the file.  A count outside 64 bits, or
    above the largest [bytes] object, gives [OverflowError]; another
    negative count gives [OSError] (EINVAL); a buffer the host cannot
    allocate gives [MemoryError].  One call is taken to return all the
    bytes asked for that the file holds; for a count above
    [RW_COUNT_MAX] on a file with more than that left, the call of the
    host returns [RW_COUNT_MAX] bytes only, so that a theorem about a
    count the caller chooses states [RW_COUNT_MAX] as its range. *)
Definition read (n : Z) : io (list byte) :=
  fun fh =>
    if (n <? - 2 ^ 63) || (BYTES_MAX <? n) then Raise OverflowError
    else if n <? 0 then Raise OSError
    else if BUFFER_MAX <? n then Raise MemoryError
    else
      let bs := take (Z.to_nat n) (drop (Z.to_nat (offset fh)) (contents fh)) in
      Ok (bs, mkfd (contents fh) (offset fh + Z.of_nat (length bs))).

End OS.

Notation "'let*' x := c 'in' k" := (OS.bind c (fun x => k))
  (at level 10, x pattern, c at level 100, k at level 200).

(** ** The program *)

Definition HEADER_SIZE : Z := 40.

Definition Timestamp : Type := Z * Z * Z.

(** [ts[0]] *)
Definition t0 (ts : Timestamp) : Z := fst (fst ts).

Record FileInfoTuple := mkFileInfo {
  width : Z;
  height : Z;
  ts_first : Timestamp;
  ts_second : Timestamp;
  ts_last : Timestamp;
  dt : Z;
  dt_total : Z;
  frames : Z;
  fps : float;
  duration : float;
  pos_first : Z;
  pos_last : Z
}.

(** [read_width_and_height(attr_file, width_pos=19, height_pos=37)].  The
    body of the [try]: the value read at [width_pos] is bound to [height],
    the one read at [height_pos] to [width]. *)
Definition read_width_and_height_body (width_pos height_pos : Z) : OS.io (Z * Z) :=
  let* _ := OS.lseek width_pos OS.SEEK_SET in
  let* bs := OS.read 2 in
  let* height := OS.lift (struct_unpack_H bs) in
  let* _ := OS.lseek height_pos OS.SEEK_SET in
  let* bs := OS.read 2 in
  let* width := OS.lift (struct_unpack_H bs) in
  OS.ret (width, height).

(** The handlers re-raise [OSError] and [ValueError] as themselves and let
    every other exception through; the [finally] clause closes
    [file_handle], which is unbound when [os.open] itself failed. *)
Definition read_width_and_height (attr_file : option (list byte))
    (width_pos height_pos : Z) : result (Z * Z) :=
  match OS.open attr_file with
  | Raise _ => Raise UnboundLocalError
  | Ok file_handle =>
      match read_width_and_height_body width_pos height_pos file_handle with
      | Ok (wh, _) => Ok wh
      | Raise e => Raise e
      end
  end.

(** [read_timestamp(file_handle, reset_location=False)]: the loop over
    [range(3)] is written out. *)
Definition read_timestamp (reset_location : bool) : OS.io Timestamp :=
  let* current_location := OS.lseek 0 OS.SEEK_CUR in
  let* bs := OS.read 4 in
  let* a := OS.lift (struct_unpack_I bs) in
  let* bs := OS.read 4 in
  let* b := OS.lift (struct_unpack_I bs) in
  let* bs := OS.read 4 in
  let* c := OS.lift (struct_unpack_I bs) in
  let* _ := (if reset_location then OS.lseek current_location OS.SEEK_SET
             else OS.ret 0) in
  OS.ret (a, b, c).

(** [read_frame(file_handle, width, height, reset_location=False)] *)
Definition read_frame (width height : Z) (reset_location : bool)
    : OS.io (list Z) :=
  let* current_location := OS.lseek 0 OS.SEEK_CUR in
  let* bs := OS.read (width * height) in
  let data := map byte_val bs in
  let* _ := (if reset_location then OS.lseek current_location OS.SEEK_SET
             else OS.ret 0) in
  OS.ret data.

(** [read_file_info(file_handle, width, height, reset_location=False)] *)
Definition read_file_info (width height : Z) (reset_location : bool)
    : OS.io FileInfoTuple :=
  let* start_pos := OS.lseek 0 OS.SEEK_CUR in
  let* pos_first := OS.lseek HEADER_SIZE OS.SEEK_SET in
  let* ts_first := read_timestamp false in
  let* _ := OS.lseek (width * height) OS.SEEK_CUR in
  let* ts_second := read_timestamp false in
  let* pos_last := OS.lseek (- (width * height + 12)) OS.SEEK_END in
  let* ts_last := read_timestamp false in
  let dt := t0 ts_second - t0 ts_first in
  let dt_total := t0 ts_last - t0 ts_first in
  let* q := OS.lift (int_truediv (pos_last - pos_first) (width * height + 12)) in
  let* n := OS.lift (int_of_float q) in
  let frames := n + 1 in
  let* x := OS.lift (int_mul_float (frames - 1) F1e6) in
  let* fps := OS.lift (float_div_int x dt_total) in
  let* duration := OS.lift (int_mul_float (t0 ts_last - t0 ts_first + dt) F1e_6) in
  let* _ := (if reset_location then OS.lseek start_pos OS.SEEK_SET
             else OS.ret 0) in
  OS.ret (mkFileInfo width height ts_first ts_second ts_last dt dt_total
            frames fps duration pos_first pos_last).

(** What the program prints, one constructor per [print] site (the eight
    lines of the file report are one message). *)
Inductive msg :=
  | MsgInfo (file_info : FileInfoTuple)
  | MsgSkip (i : nat)
  | MsgSaving (i : nat)
  | MsgIOError
  | MsgValueError.

Section Extraction.

(** The PNG files of the output directory.  The file of frame [i] is
    named [f"{i:04d}.png"]; distinct indices give distinct names, so the
    directory is a finite map from the index to the file. *)
Context {image png : Type}.

(** The external image library.  [Image_putdata size frame] is
    [Image.new('L', size, None)] followed by [image.putdata(frame)];
    [Image_save i image] is [image.save(image_filename,
    compress_level=9)] for the file name of index [i], and yields the
    file written.  Either can raise. *)
Variable Image_putdata : Z * Z -> list Z -> result image.
Variable Image_save : nat -> image -> result png.

Record state := mkstate {
  st_fh : OS.fd;
  st_out : gmap nat png;
  st_decoded : list (nat * Timestamp * list Z);
  st_log : list msg
}.

(** The body of [for i in range(file_info.frames)], over the indices
    still to visit.  [st_decoded] collects the frames read and handed
    to the image library.  The second component is the exception that
    ended the loop, if any. *)
Fixpoint frame_loop (width height : Z) (indices : list nat) (s : state)
    : state * option exn :=
  match indices with
  | [] => (s, None)
  | i :: rest =>
      match st_out s !! i with
      | Some _ =>
          let log := st_log s ++ [MsgSkip i] in
          match OS.lseek (width * height + 12) OS.SEEK_CUR (st_fh s) with
          | Raise e => (mkstate (st_fh s) (st_out s) (st_decoded s) log, Some e)
          | Ok (_, fh) =>
              frame_loop width height rest
                (mkstate fh (st_out s) (st_decoded s) log)
          end
      | None =>
          match (let* ts := read_timestamp false in
                 let* frame := read_frame width height false in
                 OS.ret (ts, frame)) (st_fh s) with
          | Raise e => (s, Some e)
          | Ok ((ts, frame), fh) =>
              let decoded := st_decoded s ++ [(i, ts, frame)] in
              match Image_putdata (height, width) frame with
              | Raise e => (mkstate fh (st_out s) decoded (st_log s), Some e)
              | Ok image =>
                  let log := st_log s ++ [MsgSaving i] in
                  match Image_save i image with
                  | Raise e => (mkstate fh (st_out s) decoded log, Some e)
                  | Ok file =>
                      frame_loop width height rest
                        (mkstate fh (<[i := file]> (st_out s)) decoded log)
                  end
              end
          end
      end
  end.

(** The body of the [try] of [read_data], once the file is open. *)
Definition read_data_body (file_handle : OS.fd) (width height : Z)
    (out_dir : gmap nat png) (framerate : option Z) : state * option exn :=
  match read_file_info width height false file_handle with
  | Raise e => (mkstate file_handle out_dir [] [], Some e)
  | Ok (file_info, fh) =>
      let log := [MsgInfo file_info] in
      let framerate : Z + float :=
        match framerate with
        | None => inr (fps file_info)
        | Some r => inl r
        end in
      match OS.lseek (pos_first file_info) OS.SEEK_SET fh with
      | Raise e => (mkstate fh out_dir [] log, Some e)
      | Ok (_, fh) =>
          frame_loop width height (seq 0 (Z.to_nat (frames file_info)))
            (mkstate fh out_dir [] log)
      end
  end.

(** What a call of [read_data] leaves behind: how it ended, the output
    directory, the frames decoded and handed to the image library, and
    the lines printed. *)
Record run := mkrun {
  outcome : result unit;
  out_files : gmap nat png;
  decoded : list (nat * Timestamp * list Z);
  stdout : list msg
}.

(** The [except] clauses: [IOError] (that is, [OSError]) and
    [ValueError] are printed and dropped. *)
Definition handler (e : exn) : option msg :=
  match e with
  | OSError => Some MsgIOError
  | ValueError => Some MsgValueError
  | _ => None
  end.

(** [read_data(data_file, attr_file, out_dir, *, first_frame=0,
    last_frame=-1, quality=100, framerate=None, skipframes=0,
    force_overwrite=False)] *)
Definition read_data (data_file attr_file : option (list byte))
    (out_dir : gmap nat png)
    (first_frame last_frame quality : Z) (framerate : option Z)
    (skipframes : Z) (force_overwrite : bool) : run :=
  match read_width_and_height attr_file 19 37 with
  | Raise e => mkrun (Raise e) out_dir [] []
  | Ok (width, height) =>
      match OS.open data_file with
      | Raise e =>
          (* the handler prints; [finally] then closes the unbound
             [file_handle] *)
          mkrun (Raise UnboundLocalError) out_dir []
            (match handler e with Some m => [m] | None => [] end)
      | Ok file_handle =>
          let '(s, r) :=
            read_data_body file_handle width height out_dir framerate in
          match r with
          | None => mkrun (Ok tt) (st_out s) (st_decoded s) (st_log s)
          | Some e =>
              match handler e with
              | Some m =>
                  mkrun (Ok tt) (st_out s) (st_decoded s) (st_log s ++ [m])
              | None =>
                  mkrun (Raise e) (st_out s) (st_decoded s) (st_log s)
              end
          end
      end
  end.

End Extraction.

(** ** Building concrete files *)

Definition byte_of_Z (z : Z) : byte :=
  match Byte.of_N (Z.to_N (z mod 256)) with
  | Some b => b
  | None => x00
  end.

(** [n] bytes of [v], least significant first. *)
Fixpoint le_bytes (n : nat) (v : Z) : list byte :=
  match n with
  | O => []
  | S k => byte_of_Z v :: le_bytes k (v / 256)
  end.

Definition ts_bytes (ts : Timestamp) : list byte :=
  let '(a, b, c) := ts in le_bytes 4 a ++ le_bytes 4 b ++ le_bytes 4 c.

(** One record: the timestamp, then the pixels. *)
Definition record_bytes (ts : Timestamp) (pixels : list Z) : list byte :=
  ts_bytes ts ++ map byte_of_Z pixels.

Definition header_bytes : list byte := replicate 40 x00.

(** An attribute file of 39 bytes with [a] at offset 19 and [b] at 37. *)
Definition attr_bytes (a b : Z) : list byte :=
  replicate 19 x00 ++ le_bytes 2 a ++ replicate 16 x00 ++ le_bytes 2 b.

(** A data file: the header, then the records. *)
Definition data_bytes (records : list (Timestamp * list Z)) : list byte :=
  header_bytes ++ concat (map (fun r => record_bytes (fst r) (snd r)) records).

(** [n] records of [npix] pixels; record [i] is stamped
    [(start + i * step, i, 0)] and its pixels hold [i]. *)
Definition ramp_records (n : nat) (npix : nat) (start step : Z)
    : list (Timestamp * list Z) :=
  map (fun i : nat =>
         ((start + Z.of_nat i * step, Z.of_nat i, 0), replicate npix (Z.of_nat i)))
      (seq 0 n).

(** ** Reading a file at known positions *)

(** The bytes [p .. p+n-1] of a file, as [os.read] returns them. *)
Definition slice (c : list byte) (p n : Z) : list byte :=
  take (Z.to_nat n) (drop (Z.to_nat p) c).

(** The value of the byte at [p] (0 past the end). *)
Definition byte_at (c : list byte) (p : Z) : Z :=
  match c !! Z.to_nat p with
  | Some b => byte_val b
  | None => 0
  end.

(** The unsigned little-endian integers stored at [p]. *)
Definition u16_le_at (c : list byte) (p : Z) : Z :=
  byte_at c p + 2 ^ 8 * byte_at c (p + 1).

Definition u32_le_at (c : list byte) (p : Z) : Z :=
  byte_at c p + 2 ^ 8 * byte_at c (p + 1) + 2 ^ 16 * byte_at c (p + 2)
  + 2 ^ 24 * byte_at c (p + 3).

Definition ts_at (c : list byte) (p : Z) : Timestamp :=
  (u32_le_at c p, u32_le_at c (p + 4), u32_le_at c (p + 8)).

Definition pixels_at (c : list byte) (p n : Z) : list Z :=
  map byte_val (slice c p n).

(** ** The second half of IEEE rounding

    [binary_round_aux] shifts the mantissa to the working precision, then
    rounds to nearest even and renormalises; [round_tail] is that second
    step, on the shifted mantissa. *)
Definition round_tail (s : bool) (mrs : shr_record) (e : Z) : float :=
  let '(mrs'', e'') :=
    shr_fexp prec emax
      (round_nearest_even (shr_m mrs) (loc_of_shr_record mrs)) e loc_Exact in
  match shr_m mrs'' with
  | Z0 => S754_zero s
  | Zpos m =>
      if e'' <=? emax - prec then S754_finite s m e'' else S754_infinity s
  | Zneg _ => S754_nan
  end.

(** ** Closed forms of the results of [read_file_info] *)

(** [(frames - 1) * 1e6 / dt_total] *)
Definition fps_of (frames dt_total : Z) : float :=
  SFdiv prec emax (float_mul (Z2F (frames - 1)) F1e6) (Z2F dt_total).

(** [(dt_total + dt) * 1e-6] *)
Definition duration_of (dt dt_total : Z) : float :=
  float_mul (Z2F (dt_total + dt)) F1e_6.

(** The record [read_file_info] returns for a file [c], written from the
    length of the file and the three timestamps it samples. *)
Definition file_info_of (c : list byte) (w h : Z) : FileInfoTuple :=
  let size := Z.of_nat (length c) in
  let stride := w * h + 12 in
  let first := ts_at c 40 in
  let second := ts_at c (52 + w * h) in
  let last := ts_at c (size - stride) in
  let dt := t0 second - t0 first in
  let dt_total := t0 last - t0 first in
  let frames := (size - stride - 40) / stride + 1 in
  mkFileInfo w h first second last dt dt_total frames
    (fps_of frames dt_total) (duration_of dt dt_total) 40 (size - stride).

(** ** Closed forms of the frames [read_data] decodes *)

(** Record [i] of a data file with frames of [w * h] pixels: its
    timestamp starts at [40 + i * (w * h + 12)], its pixels follow. *)
Definition entry (c : list byte) (w h : Z) (i : nat) : nat * Timestamp * list Z :=
  let p := 40 + Z.of_nat i * (w * h + 12) in
  (i, ts_at c p, pixels_at c (p + 12) (w * h)).

(** The index of a decoded frame. *)
Definition index_of (e : nat * Timestamp * list Z) : nat := fst (fst e).

(** The pixels of a decoded frame. *)
Definition buffer_of (e : nat * Timestamp * list Z) : list Z := snd e.

(** A decoded frame is the record stored at the offset of its index, and
    its buffer is complete. *)
Definition decoded_ok (c : list byte) (w h : Z)
    (e : nat * Timestamp * list Z) : Prop :=
  e = entry c w h (index_of e)
  /\ Z.of_nat (length (buffer_of e)) = w * h.

(** ** Concrete files used as examples *)

(** The record a call returned, if it returned. *)
Definition returned {A B} (r : result (A * B)) : option A :=
  match r with
  | Ok (a, _) => Some a
  | Raise _ => None
  end.

(** One record of 2x2 pixels: 40 + 16 bytes. *)
Definition single_frame_file : list byte :=
  data_bytes (ramp_records 1 4 1000 100).

(** Two records of 2x2 pixels and five more bytes: 77 bytes. *)
Definition ragged_file : list byte :=
  data_bytes (ramp_records 2 4 1000 100) ++ replicate 5 x07.

(** Three records of 2x2 pixels, all stamped 1000. *)
Definition flat_file : list byte :=
  data_bytes (ramp_records 3 4 1000 0).

(** Four records of 2x2 pixels, all stamped 2000. *)
Definition still_file : list byte :=
  data_bytes (ramp_records 4 4 2000 0).

(** 41 records of one pixel, stamped 1000, 1100, ..., 5000: 573 bytes. *)
Definition metrics_file : list byte :=
  data_bytes (ramp_records 41 1 1000 100).

(** Ten records of 64x48 pixels, stamped 1000, 1100, ...: 30880 bytes. *)
Definition layout_file : list byte :=
  data_bytes (ramp_records 10 (64 * 48) 1000 100).

(** Ten records of 2x1 pixels: the stream of the skip scenario. *)
Definition ten_frames_file : list byte :=
  data_bytes (ramp_records 10 2 1000 100).

(** Geometry files. *)
Definition attr_64_48 : list byte := attr_bytes 64 48.
Definition attr_1_2 : list byte := attr_bytes 1 2.

(** A timestamp of twelve bytes followed by three bytes. *)
Definition short_stream : list byte :=
  ts_bytes (1000, 7, 9) ++ [x01; x02; x03].

(** An image library for the examples: an image is its size and its
    pixels, and the file written holds the same; [save_failing_at k e]
    fails with [e] on the file of index [k]. *)
Definition putdata_ok (size : Z * Z) (frame : list Z)
    : result (Z * Z * list Z) :=
  Ok (size, frame).

Definition save_ok (i : nat) (image : Z * Z * list Z)
    : result (Z * Z * list Z) :=
  Ok image.

Definition save_failing_at (k : nat) (e : exn) (i : nat)
    (image : Z * Z * list Z) : result (Z * Z * list Z) :=
  if decide (i = k) then Raise e else Ok image.

(** An output directory where frame 3 is already there. *)
Definition frame_3_present : gmap nat (Z * Z * list Z) :=
  {[ 3%nat := ((1, 2), [3; 3]) ]}.


(** ** Closed forms of a whole call of [read_data] *)

Section Steps.

Context {image png : Type}.
Variable Image_putdata : Z * Z -> list Z -> result image.
Variable Image_save : nat -> image -> result png.

(** The file the image library writes for record [i]: the image is made
    with size [(height, width)] from the pixels of the record, then
    saved under the name of index [i]. *)
Definition saved (c : list byte) (w h : Z) (i : nat) : option png :=
  match Image_putdata (h, w) (buffer_of (entry c w h i)) with
  | Ok im =>
      match Image_save i im with
      | Ok f => Some f
      | Raise _ => None
      end
  | Raise _ => None
  end.

(** The exception the image library raises on record [i], if it raises
    one: from [putdata], or else from [save]. *)
Definition library_failure (c : list byte) (w h : Z) (i : nat) : option exn :=
  match Image_putdata (h, w) (buffer_of (entry c w h i)) with
  | Raise e => Some e
  | Ok im => match Image_save i im with Raise e => Some e | Ok _ => None end
  end.

(** The loop of [read_data] with the reads replaced by the records they
    return on a file that holds them: the output directory, the frames
    decoded, the lines printed and the exception that ended the loop. *)
Fixpoint frame_steps (c : list byte) (w h : Z) (indices : list nat)
    (out : gmap nat png) (dec : list (nat * Timestamp * list Z))
    (log : list msg)
    : gmap nat png * list (nat * Timestamp * list Z) * list msg * option exn :=
  match indices with
  | [] => (out, dec, log, None)
  | i :: rest =>
      match out !! i with
      | Some _ => frame_steps c w h rest out dec (log ++ [MsgSkip i])
      | None =>
          let dec' := dec ++ [entry c w h i] in
          match Image_putdata (h, w) (buffer_of (entry c w h i)) with
          | Raise e => (out, dec', log, Some e)
          | Ok im =>
              match Image_save i im with
              | Raise e => (out, dec', log ++ [MsgSaving i], Some e)
              | Ok f =>
                  frame_steps c w h rest (<[i := f]> out) dec'
                    (log ++ [MsgSaving i])
              end
          end
      end
  end.

(** How [read_data] ends once its loop has ended. *)
Definition run_of_steps
    (x : gmap nat png * list (nat * Timestamp * list Z) * list msg * option exn)
    : @run png :=
  let '(out, dec, log, r) := x in
  match r with
  | None => mkrun (Ok tt) out dec log
  | Some e =>
      match handler e with
      | Some m => mkrun (Ok tt) out dec (log ++ [m])
      | None => mkrun (Raise e) out dec log
      end
  end.

End Steps.

(** The geometry [read_data] takes from an attribute file, and the
    number of records its loop visits on a data file. *)
Definition width_of (a : list byte) : Z := u16_le_at a 37.
Definition height_of (a : list byte) : Z := u16_le_at a 19.

Definition frame_count (c a : list byte) : nat :=
  Z.to_nat (frames (file_info_of c (width_of a) (height_of a))).

(** The files on which [read_data] reaches its loop. *)
Definition readable (c a : list byte) : Prop :=
  39 <= Z.of_nat (length a)
  /\ 52 + (width_of a * height_of a + 12) <= Z.of_nat (length c)
  /\ t0 (ts_at c (Z.of_nat (length c) - (width_of a * height_of a + 12)))
     <> t0 (ts_at c 40).

#[global] Instance readable_dec c a : Decision (readable c a).
Proof. unfold readable. apply _. Defined.

(** A record the format can hold: three timestamp fields of 32 bits and
    [w * h] pixels of 8 bits. *)
Definition field_ok (v : Z) : Prop := 0 <= v < 2 ^ 32.

Definition record_ok (w h : Z) (r : Timestamp * list Z) : Prop :=
  field_ok (fst (fst (fst r))) /\ field_ok (snd (fst (fst r)))
  /\ field_ok (snd (fst r))
  /\ Z.of_nat (length (snd r)) = w * h
  /\ Forall (fun v => 0 <= v < 256) (snd r).

#[global] Instance record_ok_dec w h r : Decision (record_ok w h r).
Proof. unfold record_ok, field_ok. apply _. Defined.

(** The line [read_data] prints when its loop reaches index [i]: the
    file of that index is there, or it is about to be saved. *)
Definition line_of {png : Type} (out : gmap nat png) (i : nat) : msg :=
  match out !! i with
  | Some _ => MsgSkip i
  | None => MsgSaving i
  end.

(** The ten records of [ten_frames_file] with every pixel set to 7. *)
Definition repainted_file : list byte :=
  data_bytes (map (fun r => (fst r, [7; 7])) (ramp_records 10 2 1000 100)).

(** ** The names of the image files *)

Module Names.
Import Ascii String.

(** [f"{i:04d}"]: the decimal digits of [i], with zeros on the left up
    to four characters. *)
Definition format_04d (i : nat) : string :=
  let digits := DecimalString.NilEmpty.string_of_uint (Nat.to_uint i) in
  append
    (string_of_list_ascii (repeat "0"%char (4 - String.length digits)))
    digits.

(** [f"{i:04d}.png"], the name of the file of frame [i] inside
    [out_dir]. *)
Definition image_filename (i : nat) : string :=
  append (format_04d i) ".png"%string.

End Names.

Lemma byte_val_range b : 0 <= byte_val b < 256.
Proof.
  unfold byte_val. pose proof (Byte.to_N_bounded b). lia.
Qed.

Lemma byte_at_range c p : 0 <= byte_at c p < 256.
Proof.
  unfold byte_at. destruct (c !! Z.to_nat p); [apply byte_val_range | lia].
Qed.

Lemma u16_le_at_range c p : 0 <= u16_le_at c p < 2 ^ 16.
Proof.
  unfold u16_le_at.
  pose proof (byte_at_range c p). pose proof (byte_at_range c (p + 1)). lia.
Qed.

Lemma u32_le_at_range c p : 0 <= u32_le_at c p < 2 ^ 32.
Proof.
  unfold u32_le_at.
  pose proof (byte_at_range c p). pose proof (byte_at_range c (p + 1)).
  pose proof (byte_at_range c (p + 2)). pose proof (byte_at_range c (p + 3)).
  lia.
Qed.

Lemma slice_length c p n :
  0 <= p -> 0 <= n -> p + n <= Z.of_nat (length c) ->
  length (slice c p n) = Z.to_nat n.
Proof.
  intros Hp Hn Hlen. unfold slice. rewrite length_take, length_drop. lia.
Qed.

Lemma slice_length_short c p n :
  0 <= p -> 0 <= n -> p <= Z.of_nat (length c) < p + n ->
  Z.of_nat (length (slice c p n)) = Z.of_nat (length c) - p.
Proof.
  intros Hp Hn Hlen. unfold slice. rewrite length_take, length_drop. lia.
Qed.

Lemma slice_past_end c p n :
  0 <= p -> Z.of_nat (length c) <= p -> slice c p n = [].
Proof.
  intros Hp Hlen. unfold slice. rewrite drop_ge by lia. apply take_nil.
Qed.

Lemma slice_cons c p n :
  0 <= p -> 0 < n -> p < Z.of_nat (length c) ->
  exists b, c !! Z.to_nat p = Some b /\ slice c p n = b :: slice c (p + 1) (n - 1).
Proof.
  intros Hp Hn Hlen.
  destruct (c !! Z.to_nat p) as [b|] eqn:Hb.
  - exists b. split; [reflexivity|]. unfold slice.
    rewrite (drop_S _ _ _ Hb).
    replace (Z.to_nat n) with (S (Z.to_nat (n - 1))) by lia.
    replace (Z.to_nat (p + 1)) with (S (Z.to_nat p)) by lia.
    reflexivity.
  - apply lookup_ge_None in Hb. lia.
Qed.

Lemma le_uint_slice2 c p :
  0 <= p -> p + 2 <= Z.of_nat (length c) ->
  le_uint (slice c p 2) = u16_le_at c p.
Proof.
  intros Hp Hlen.
  destruct (slice_cons c p 2) as (b0 & H0 & ->); [lia..|].
  destruct (slice_cons c (p + 1) (2 - 1)) as (b1 & H1 & ->); [lia..|].
  unfold u16_le_at, byte_at. rewrite H0, H1. simpl. lia.
Qed.

Lemma le_uint_slice4 c p :
  0 <= p -> p + 4 <= Z.of_nat (length c) ->
  le_uint (slice c p 4) = u32_le_at c p.
Proof.
  intros Hp Hlen.
  destruct (slice_cons c p 4) as (b0 & H0 & ->); [lia..|].
  destruct (slice_cons c (p + 1) (4 - 1)) as (b1 & H1 & ->); [lia..|].
  destruct (slice_cons c (p + 1 + 1) (4 - 1 - 1)) as (b2 & H2 & ->); [lia..|].
  destruct (slice_cons c (p + 1 + 1 + 1) (4 - 1 - 1 - 1)) as (b3 & H3 & ->); [lia..|].
  unfold u32_le_at, byte_at.
  replace (p + 2) with (p + 1 + 1) by lia.
  replace (p + 3) with (p + 1 + 1 + 1) by lia.
  rewrite H0, H1, H2, H3. simpl. lia.
Qed.

(** *** The [os] calls on a descriptor at a known position *)

Lemma bind_ok {A B} (c : OS.io A) (k : A -> OS.io B) fh a fh' :
  c fh = Ok (a, fh') -> OS.bind c k fh = k a fh'.
Proof. intros H. unfold OS.bind. rewrite H. reflexivity. Qed.

Lemma bind_raise {A B} (c : OS.io A) (k : A -> OS.io B) fh e :
  c fh = Raise e -> OS.bind c k fh = Raise e.
Proof. intros H. unfold OS.bind. rewrite H. reflexivity. Qed.

Lemma lseek_set c p q :
  0 <= q -> OS.lseek q OS.SEEK_SET (OS.mkfd c p) = Ok (q, OS.mkfd c q).
Proof.
  intros Hq. unfold OS.lseek. rewrite Z.add_0_l.
  destruct (Z.ltb_spec q 0); [lia | reflexivity].
Qed.

Lemma lseek_cur c p d :
  0 <= p + d ->
  OS.lseek d OS.SEEK_CUR (OS.mkfd c p) = Ok (p + d, OS.mkfd c (p + d)).
Proof.
  intros Hq. unfold OS.lseek. simpl.
  destruct (Z.ltb_spec (p + d) 0); [lia | reflexivity].
Qed.

Lemma lseek_tell c p :
  0 <= p -> OS.lseek 0 OS.SEEK_CUR (OS.mkfd c p) = Ok (p, OS.mkfd c p).
Proof.
  intros Hp. rewrite lseek_cur by lia. rewrite Z.add_0_r. reflexivity.
Qed.

Lemma lseek_end c p d :
  0 <= Z.of_nat (length c) + d ->
  OS.lseek d OS.SEEK_END (OS.mkfd c p)
  = Ok (Z.of_nat (length c) + d, OS.mkfd c (Z.of_nat (length c) + d)).
Proof.
  intros Hq. unfold OS.lseek, OS.size. simpl.
  destruct (Z.ltb_spec (Z.of_nat (length c) + d) 0); [lia | reflexivity].
Qed.

Lemma buffer_max_value : OS.BUFFER_MAX = 2 ^ 32.
Proof. reflexivity. Qed.

Lemma read_any c p n :
  0 <= n -> n <= OS.BUFFER_MAX ->
  OS.read n (OS.mkfd c p)
  = Ok (slice c p n, OS.mkfd c (p + Z.of_nat (length (slice c p n)))).
Proof.
  intros Hn Hmax. rewrite buffer_max_value in Hmax.
  assert (H32 : 2 ^ 32 < 2 ^ 63 - 1 - 33) by reflexivity.
  unfold OS.read, OS.BYTES_MAX, OS.SSIZE_MAX, OS.BUFFER_MAX. cbn [OS.offset OS.contents].
  destruct (Z.ltb_spec n (- 2 ^ 63)); [lia|].
  destruct (Z.ltb_spec (2 ^ 63 - 1 - 33) n); [lia|]. cbn [orb].
  destruct (Z.ltb_spec n 0); [lia|].
  destruct (Z.ltb_spec (2 ^ 32) n); [lia | reflexivity].
Qed.

Lemma read_full c p n :
  0 <= p -> 0 <= n -> n <= OS.BUFFER_MAX -> p + n <= Z.of_nat (length c) ->
  OS.read n (OS.mkfd c p) = Ok (slice c p n, OS.mkfd c (p + n)).
Proof.
  intros Hp Hn Hmax Hlen. rewrite read_any by assumption.
  rewrite slice_length by lia.
  rewrite Z2Nat.id by lia. reflexivity.
Qed.

Lemma rw_count_fits n : n <= OS.RW_COUNT_MAX -> n <= OS.BUFFER_MAX.
Proof.
  unfold OS.RW_COUNT_MAX. rewrite buffer_max_value. lia.
Qed.

(** The failures of [os.read]. *)
Lemma read_negative n fh :
  - 2 ^ 63 <= n < 0 -> OS.read n fh = Raise OSError.
Proof.
  intros Hn. unfold OS.read, OS.BYTES_MAX, OS.SSIZE_MAX.
  destruct (Z.ltb_spec n (- 2 ^ 63)); [lia|].
  destruct (Z.ltb_spec (2 ^ 63 - 1 - 33) n); [lia|]. cbn [orb].
  destruct (Z.ltb_spec n 0); [reflexivity | lia].
Qed.

Lemma read_overflow n fh :
  n < - 2 ^ 63 \/ 2 ^ 63 - 34 < n -> OS.read n fh = Raise OverflowError.
Proof.
  intros Hn. unfold OS.read, OS.BYTES_MAX, OS.SSIZE_MAX.
  destruct (Z.ltb_spec n (- 2 ^ 63)); [reflexivity|].
  destruct (Z.ltb_spec (2 ^ 63 - 1 - 33) n); [reflexivity | lia].
Qed.

Lemma read_no_memory n fh :
  OS.BUFFER_MAX < n <= 2 ^ 63 - 34 -> OS.read n fh = Raise MemoryError.
Proof.
  intros Hn. rewrite buffer_max_value in Hn.
  unfold OS.read, OS.BYTES_MAX, OS.SSIZE_MAX, OS.BUFFER_MAX.
  destruct (Z.ltb_spec n (- 2 ^ 63)); [lia|].
  destruct (Z.ltb_spec (2 ^ 63 - 1 - 33) n); [lia|]. cbn [orb].
  destruct (Z.ltb_spec n 0); [lia|].
  destruct (Z.ltb_spec (2 ^ 32) n); [reflexivity | lia].
Qed.

Lemma unpack_I_ok bs :
  length bs = 4%nat -> struct_unpack_I bs = Ok (le_uint bs).
Proof.
  intros H. unfold struct_unpack_I, struct_unpack_uint.
  destruct (decide (length bs = 4%nat)); [reflexivity | contradiction].
Qed.

Lemma unpack_I_short bs :
  length bs <> 4%nat -> struct_unpack_I bs = Raise StructError.
Proof.
  intros H. unfold struct_unpack_I, struct_unpack_uint.
  destruct (decide (length bs = 4%nat)); [contradiction | reflexivity].
Qed.

(** One field of a timestamp: four bytes read and unpacked. *)
Lemma read_u32_ok {B} c p (k : Z -> OS.io B) :
  0 <= p -> p + 4 <= Z.of_nat (length c) ->
  (let* bs := OS.read 4 in let* a := OS.lift (struct_unpack_I bs) in k a)
    (OS.mkfd c p)
  = k (u32_le_at c p) (OS.mkfd c (p + 4)).
Proof.
  intros Hp Hlen.
  rewrite (bind_ok _ _ _ _ _
             (read_full c p 4 Hp ltac:(lia)
                ltac:(rewrite buffer_max_value; lia) Hlen)).
  unfold OS.bind at 1, OS.lift.
  rewrite unpack_I_ok by (rewrite slice_length; lia).
  rewrite le_uint_slice4 by lia. reflexivity.
Qed.

Lemma read_u32_short {B} c p (k : Z -> OS.io B) :
  0 <= p -> Z.of_nat (length c) < p + 4 ->
  (let* bs := OS.read 4 in let* a := OS.lift (struct_unpack_I bs) in k a)
    (OS.mkfd c p)
  = Raise StructError.
Proof.
  intros Hp Hlen.
  rewrite (bind_ok _ _ _ _ _
             (read_any c p 4 ltac:(lia) ltac:(rewrite buffer_max_value; lia))).
  unfold OS.bind at 1, OS.lift.
  rewrite unpack_I_short; [reflexivity|].
  destruct (Z.le_gt_cases (Z.of_nat (length c)) p).
  - rewrite slice_past_end by lia. simpl. lia.
  - pose proof (slice_length_short c p 4). lia.
Qed.

Lemma read_timestamp_ok c p reset :
  0 <= p -> p + 12 <= Z.of_nat (length c) ->
  read_timestamp reset (OS.mkfd c p)
  = Ok (ts_at c p, OS.mkfd c (if reset then p else p + 12)).
Proof.
  intros Hp Hlen. unfold read_timestamp.
  rewrite (bind_ok _ _ _ _ _ (lseek_tell c p Hp)).
  rewrite read_u32_ok by lia.
  rewrite read_u32_ok by lia.
  rewrite read_u32_ok by lia.
  unfold ts_at.
  replace (p + 4 + 4) with (p + 8) by lia.
  replace (p + 8 + 4) with (p + 12) by lia.
  destruct reset.
  - rewrite (bind_ok _ _ _ _ _ (lseek_set c (p + 12) p Hp)). reflexivity.
  - reflexivity.
Qed.

Lemma read_timestamp_short c p reset :
  0 <= p -> Z.of_nat (length c) < p + 12 ->
  read_timestamp reset (OS.mkfd c p) = Raise StructError.
Proof.
  intros Hp Hlen. unfold read_timestamp.
  rewrite (bind_ok _ _ _ _ _ (lseek_tell c p Hp)).
  destruct (Z.lt_ge_cases (Z.of_nat (length c)) (p + 4)).
  { apply read_u32_short; lia. }
  rewrite read_u32_ok by lia.
  destruct (Z.lt_ge_cases (Z.of_nat (length c)) (p + 4 + 4)).
  { apply read_u32_short; lia. }
  rewrite read_u32_ok by lia.
  apply read_u32_short; lia.
Qed.

(** ** Facts about the binary64 model *)

(** The two float literals of the program: [1e6] is [10^6 * 2^33 * 2^-33]
    and [1e-6] is the double [0x1.0c6f7a0b5ed8dp-20]. *)
Example F1e6_value : F1e6 = S754_finite false 8589934592000000 (-33).
Proof. reflexivity. Qed.

Example F1e_6_value : F1e_6 = S754_finite false 4722366482869645 (-72).
Proof. reflexivity. Qed.

Lemma digits2_pos_size p : digits2_pos p = Pos.size p.
Proof. induction p; simpl; congruence. Qed.

Lemma Zdigits2_log2 m : 0 < m -> Zdigits2 m = Z.log2 m + 1.
Proof.
  intros Hm. destruct m as [|p|p]; try lia.
  destruct p; simpl; rewrite ?digits2_pos_size; lia.
Qed.

Lemma Zdigits2_unique m d :
  0 < d -> 2 ^ (d - 1) <= m < 2 ^ d -> Zdigits2 m = d.
Proof.
  intros Hd [Hlo Hhi].
  assert (0 < m) by (pose proof (Z.pow_pos_nonneg 2 (d - 1)); lia).
  rewrite Zdigits2_log2 by assumption.
  rewrite (Z.log2_unique m (d - 1)); [lia | lia |].
  replace (Z.succ (d - 1)) with d by lia. lia.
Qed.

Lemma Zdigits2_bounds m :
  0 < m -> 0 < Zdigits2 m /\ 2 ^ (Zdigits2 m - 1) <= m < 2 ^ Zdigits2 m.
Proof.
  intros Hm. rewrite Zdigits2_log2 by assumption.
  pose proof (Z.log2_nonneg m). pose proof (Z.log2_spec m Hm).
  replace (Z.log2 m + 1 - 1) with (Z.log2 m) by lia.
  replace (Z.log2 m + 1) with (Z.succ (Z.log2 m)) by lia. lia.
Qed.

Lemma Zdigits2_le m d : 0 < m -> m < 2 ^ d -> Zdigits2 m <= d.
Proof.
  intros Hm Hlt. destruct (Zdigits2_bounds m Hm) as [Hd [Hlo _]].
  destruct (Z.le_gt_cases (Zdigits2 m) d) as [|Hgt]; [assumption|].
  assert (2 ^ d <= 2 ^ (Zdigits2 m - 1)).
  { apply Z.pow_le_mono_r; lia. }
  lia.
Qed.

Lemma shr_1_spec m r s :
  0 <= m ->
  shr_1 (Build_shr_record m r s) = Build_shr_record (Z.div2 m) (Z.odd m) (r || s).
Proof.
  intros Hm. destruct m as [|[p|p|]|]; try lia; reflexivity.
Qed.

Lemma loc_of_shr_record_of_loc m l :
  loc_of_shr_record (shr_record_of_loc m l) = l.
Proof. destruct l as [|[]]; reflexivity. Qed.

Lemma shr_m_of_loc m l : shr_m (shr_record_of_loc m l) = m.
Proof. destruct l as [|[]]; reflexivity. Qed.

(** The position of the exact quotient between two consecutive integers,
    as the division records it. *)
Lemma new_location_spec b r :
  0 <= r < b ->
  match new_location b r with
  | loc_Exact => r = 0
  | loc_Inexact Lt => 0 < r /\ 2 * r < b
  | loc_Inexact Eq => 2 * r = b
  | loc_Inexact Gt => b < 2 * r
  end.
Proof.
  intros Hr. unfold new_location.
  destruct (Z.even b) eqn:Hev.
  - unfold new_location_even.
    destruct (Z.eqb_spec r 0); [assumption|].
    destruct (Z.compare_spec (2 * r) b); lia.
  - unfold new_location_odd.
    destruct (Z.eqb_spec r 0); [assumption|].
    assert (Hodd : Z.odd b = true) by (rewrite <- Z.negb_even, Hev; reflexivity).
    apply Z.odd_spec in Hodd. destruct Hodd as [k Hk].
    destruct (Z.compare_spec (2 * r + 1) b); lia.
Qed.

Lemma binary_round_aux_tail s m e l :
  binary_round_aux prec emax s m e l
  = round_tail s (fst (shr_fexp prec emax m e l)) (snd (shr_fexp prec emax m e l)).
Proof.
  unfold binary_round_aux, round_tail.
  destruct (shr_fexp prec emax m e l). reflexivity.
Qed.

Lemma fexp_normal d e :
  -1074 <= d + e - 53 -> fexp prec emax (d + e) = d + e - 53.
Proof. intros H. unfold fexp, emin, prec, emax. lia. Qed.

Lemma shr_fexp_53 m e l :
  2 ^ 52 <= m < 2 ^ 53 -> -1074 <= e ->
  shr_fexp prec emax m e l = (shr_record_of_loc m l, e).
Proof.
  intros Hm He. unfold shr_fexp.
  rewrite (Zdigits2_unique m 53) by lia.
  rewrite fexp_normal by lia.
  replace (53 + e - 53 - e) with 0 by lia. reflexivity.
Qed.

Lemma shr_fexp_54 m e l :
  2 ^ 53 <= m < 2 ^ 54 -> -1075 <= e ->
  shr_fexp prec emax m e l = (shr_1 (shr_record_of_loc m l), e + 1).
Proof.
  intros Hm He. unfold shr_fexp.
  rewrite (Zdigits2_unique m 54) by lia.
  rewrite fexp_normal by lia.
  replace (54 + e - 53 - e) with 1 by lia. reflexivity.
Qed.

Lemma round_nearest_even_range m l :
  m <= round_nearest_even m l <= m + 1.
Proof.
  destruct l as [|[]]; simpl; try lia. destruct (Z.even m); lia.
Qed.

(** Rounding a mantissa of 53 bits: the result is finite, and its value
    is the rounded mantissa at the same exponent. *)
Lemma round_tail_53 s mrs e :
  2 ^ 52 <= shr_m mrs < 2 ^ 53 -> -1074 <= e <= 970 ->
  exists m' e',
    round_tail s mrs e = S754_finite s m' e'
    /\ Z.shiftl (Z.pos m') e'
       = Z.shiftl (round_nearest_even (shr_m mrs) (loc_of_shr_record mrs)) e
    /\ 2 ^ 52 <= Z.pos m' < 2 ^ 53 /\ e <= e' <= e + 1.
Proof.
  intros Hm He. unfold round_tail.
  pose proof (round_nearest_even_range (shr_m mrs) (loc_of_shr_record mrs)) as Hx.
  set (x := round_nearest_even (shr_m mrs) (loc_of_shr_record mrs)) in *.
  destruct (Z.lt_ge_cases x (2 ^ 53)) as [Hlt|Hge].
  - rewrite shr_fexp_53 by lia. simpl shr_m.
    destruct x as [|p|p] eqn:Hp; try lia.
    unfold emax, prec. destruct (Z.leb_spec e (1024 - 53)); [|lia].
    exists p, e. repeat split; lia.
  - assert (Hx53 : x = 2 ^ 53) by lia.
    rewrite shr_fexp_54 by lia. rewrite Hx53.
    simpl shr_m.
    unfold emax, prec. destruct (Z.leb_spec (e + 1) (1024 - 53)); [|lia].
    exists (2 ^ 52)%positive, (e + 1). repeat split; try lia.
    change (2 ^ 53) with (Z.shiftl (Z.pos (2 ^ 52)) 1).
    rewrite Z.shiftl_shiftl by lia. f_equal. lia.
Qed.

(** The integer division at the heart of [a / b] for two positive
    [int]s below [2^53]: the dividend is scaled so that the quotient has
    53 or 54 bits. *)
Lemma SFdiv_core_int a b :
  0 < a < 2 ^ 53 -> 0 < b < 2 ^ 53 ->
  exists sh q r,
    1 <= sh <= 105
    /\ SFdiv_core_binary prec emax a 0 b 0 = (q, - sh, new_location b r)
    /\ a * 2 ^ sh = q * b + r /\ 0 <= r < b
    /\ 2 ^ 52 <= q < 2 ^ 54.
Proof.
  intros Ha Hb.
  destruct (Zdigits2_bounds a) as [Hd1 [Ha1 Ha2]]; [lia|].
  destruct (Zdigits2_bounds b) as [Hd2 [Hb1 Hb2]]; [lia|].
  pose proof (Zdigits2_le a 53 ltac:(lia) ltac:(lia)) as Hd1'.
  pose proof (Zdigits2_le b 53 ltac:(lia) ltac:(lia)) as Hd2'.
  unfold SFdiv_core_binary. cbv zeta.
  set (d1 := Zdigits2 a) in *. set (d2 := Zdigits2 b) in *.
  assert (He : Z.min (fexp prec emax (d1 + 0 - (d2 + 0))) (0 - 0) = - (53 - d1 + d2)).
  { unfold fexp, emin, prec, emax. lia. }
  rewrite He. clear He.
  set (sh := 53 - d1 + d2).
  assert (Hsh : 1 <= sh <= 105) by (unfold sh; lia).
  replace (0 - 0 - - sh) with sh by lia.
  destruct sh as [|psh|psh] eqn:Hpsh; try lia.
  rewrite <- Hpsh in *.
  rewrite Z.shiftl_mul_pow2 by lia.
  pose proof (Z_div_mod (a * 2 ^ sh) b ltac:(lia)) as Hdiv.
  destruct (Z.div_eucl (a * 2 ^ sh) b) as [q r]. destruct Hdiv as [Hqr Hr].
  exists sh, q, r.
  assert (HP : 2 ^ (d1 - 1) * 2 ^ sh = 2 ^ 53 * 2 ^ (d2 - 1)).
  { rewrite <- !Z.pow_add_r by lia. f_equal. unfold sh. lia. }
  assert (Hd1e : 2 ^ d1 = 2 * 2 ^ (d1 - 1)).
  { replace d1 with (Z.succ (d1 - 1)) at 1 by lia. apply Z.pow_succ_r. lia. }
  assert (Hd2e : 2 ^ d2 = 2 * 2 ^ (d2 - 1)).
  { replace d2 with (Z.succ (d2 - 1)) at 1 by lia. apply Z.pow_succ_r. lia. }
  assert (HN : 0 < 2 ^ sh) by (apply Z.pow_pos_nonneg; lia).
  set (N := 2 ^ sh) in *. set (P1 := 2 ^ (d1 - 1)) in *.
  set (P2 := 2 ^ (d2 - 1)) in *.
  assert (Hlo : P1 * N <= a * N) by nia.
  assert (Hhi : a * N < 2 * P1 * N) by nia.
  repeat split; try lia.
  - (* 2^52 <= q *)
    assert (2 ^ 52 * b < (q + 1) * b) by nia. nia.
  - (* q < 2^54 *)
    assert (q * b < 2 ^ 54 * b) by nia. nia.
Qed.

(** [int(a / b)] is the integer quotient, for positive [int]s below
    [2^53]: rounding the quotient to 53 bits never reaches the next
    integer. *)
Lemma int_truediv_floor a b :
  0 < a < 2 ^ 53 -> 0 < b < 2 ^ 53 ->
  exists m e,
    int_truediv a b = Ok (S754_finite false m e)
    /\ int_of_float (S754_finite false m e) = Ok (a / b).
Proof.
  intros Ha Hb. unfold int_truediv.
  destruct (Z.eqb_spec b 0); [lia|]. destruct (Z.eqb_spec a 0); [lia|].
  destruct (Z.ltb_spec a 0); [lia|]. destruct (Z.ltb_spec b 0); [lia|].
  rewrite !Z.abs_eq by lia. simpl xorb.
  destruct (SFdiv_core_int a b Ha Hb)
    as (sh & q & r & Hsh & -> & Hqr & Hr & Hq).
  pose proof (new_location_spec b r Hr) as Hloc.
  rewrite binary_round_aux_tail.
  assert (HN : 0 < 2 ^ sh) by (apply Z.pow_pos_nonneg; lia).
  pose proof (Z.div_mod a b ltac:(lia)) as HK.
  pose proof (Z.mod_pos_bound a b ltac:(lia)) as Hr0.
  remember (a / b) as K eqn:HeqK. remember (a mod b) as r0 eqn:Heqr0.
  clear HeqK Heqr0.
  assert (F1 : K * 2 ^ sh <= q).
  { assert (b * (K * 2 ^ sh) < b * (q + 1)) by nia. nia. }
  assert (F2 : q * b + r + 2 ^ sh <= (K + 1) * 2 ^ sh * b) by nia.
  assert (F4 : q < (K + 1) * 2 ^ sh).
  { assert (b * q < b * ((K + 1) * 2 ^ sh)) by nia. nia. }
  destruct (Z.lt_ge_cases q (2 ^ 53)) as [Hq53|Hq54].
  - (* a quotient of 53 bits *)
    rewrite shr_fexp_53 by lia. cbn [fst snd].
    destruct (round_tail_53 false (shr_record_of_loc q (new_location b r)) (- sh))
      as (m' & e' & -> & Hval & _ & _).
    { rewrite shr_m_of_loc. lia. }
    { lia. }
    exists m', e'. split; [reflexivity|].
    unfold int_of_float. f_equal. rewrite Hval.
    rewrite shr_m_of_loc, loc_of_shr_record_of_loc.
    rewrite Z.shiftl_div_pow2 by lia. rewrite Z.opp_involutive.
    assert (F3 : b < 2 * 2 ^ sh) by nia.
    set (x := round_nearest_even q (new_location b r)).
    assert (Hx : x = q \/ (x = q + 1 /\ b <= 2 * r)).
    { unfold x. destruct (new_location b r) as [|[]]; simpl; try lia.
      destruct (Z.even q); lia. }
    symmetry. apply Z.div_unique with (r := x - 2 ^ sh * K).
    + left. split; [lia|].
      destruct Hx as [->|[-> Hround]]; nia.
    + lia.
  - (* a quotient of 54 bits *)
    rewrite shr_fexp_54 by lia. cbn [fst snd].
    set (mrs := shr_1 (shr_record_of_loc q (new_location b r))).
    assert (Hmrs : shr_m mrs = q / 2
                   /\ (Z.odd q = false ->
                       round_nearest_even (shr_m mrs) (loc_of_shr_record mrs) = q / 2)).
    { unfold mrs. destruct (new_location b r) as [|[]]; simpl shr_record_of_loc;
        rewrite shr_1_spec by lia; rewrite Z.div2_div; simpl shr_m;
        (split; [reflexivity|]); intros ->; reflexivity. }
    destruct Hmrs as [Hm Hev].
    assert (Hh : 2 * (q / 2) <= q <= 2 * (q / 2) + 1)
      by (clear; Z.div_mod_to_equations; lia).
    remember (q / 2) as h eqn:Heqh. clear Heqh.
    destruct (round_tail_53 false mrs (- sh + 1)) as (m' & e' & -> & Hval & _ & _).
    { rewrite Hm. clear - Hq Hq54 Hh. lia. }
    { lia. }
    exists m', e'. split; [reflexivity|].
    unfold int_of_float. f_equal. rewrite Hval.
    rewrite Z.shiftl_div_pow2 by lia.
    replace (- (- sh + 1)) with (sh - 1) by lia.
    assert (HN2 : 2 ^ sh = 2 * 2 ^ (sh - 1)).
    { replace sh with (Z.succ (sh - 1)) at 1 by lia. apply Z.pow_succ_r. lia. }
    assert (F3 : b < 2 ^ sh) by nia.
    pose proof (round_nearest_even_range (shr_m mrs) (loc_of_shr_record mrs)) as Hx.
    set (x := round_nearest_even (shr_m mrs) (loc_of_shr_record mrs)) in *.
    assert (Hx' : x = h \/ (x = h + 1 /\ q = 2 * h + 1)).
    { destruct (Z.odd q) eqn:Hodd.
      - rewrite Hm in Hx. apply Z.odd_spec in Hodd. destruct Hodd as [k Hk].
        lia.
      - left. apply Hev. reflexivity. }
    remember (2 ^ (sh - 1)) as N2 eqn:HeqN2. clear HeqN2.
    symmetry. apply Z.div_unique with (r := x - N2 * K).
    + left. split; [lia|].
      destruct Hx' as [->|[-> Hround]]; [lia|].
      assert (q + 1 <= (K + 1) * (2 * N2)) by nia.
      destruct (Z.eq_dec (q + 1) ((K + 1) * (2 * N2))) as [Heq|]; [|lia].
      exfalso. nia.
    + lia.
Qed.

(** *** Finiteness of the results *)

Lemma shr_1_m mrs : 0 <= shr_m mrs -> shr_m (shr_1 mrs) = shr_m mrs / 2.
Proof.
  destruct mrs as [m r s]. intros Hm. cbn [shr_m] in Hm.
  rewrite shr_1_spec by assumption. cbn [shr_m]. apply Z.div2_div.
Qed.

Lemma iter_shr_1_m p : forall mrs,
  0 <= shr_m mrs ->
  shr_m (SpecFloat.iter_pos shr_1 p mrs) = shr_m mrs / 2 ^ Z.pos p.
Proof.
  assert (Hnn : forall a b, 0 <= a -> 0 < b -> 0 <= a / b).
  { intros. apply Z.div_pos; lia. }
  induction p as [p IH|p IH|]; intros mrs Hm; simpl SpecFloat.iter_pos.
  - assert (H1 : 0 <= shr_m (shr_1 mrs)) by (rewrite shr_1_m; [apply Hnn|]; lia).
    assert (H2 : 0 <= shr_m (SpecFloat.iter_pos shr_1 p (shr_1 mrs))).
    { rewrite IH by assumption. apply Hnn; [lia|]. apply Z.pow_pos_nonneg; lia. }
    rewrite IH, IH, shr_1_m by assumption.
    rewrite !Z.div_div by (try apply Z.pow_pos_nonneg; lia).
    f_equal. replace (Z.pos p~1) with (Z.succ (2 * Z.pos p)) by lia.
    rewrite Z.pow_succ_r, Z.pow_twice_r by lia. ring.
  - assert (H2 : 0 <= shr_m (SpecFloat.iter_pos shr_1 p mrs)).
    { rewrite IH by assumption. apply Hnn; [lia|]. apply Z.pow_pos_nonneg; lia. }
    rewrite IH, IH by assumption.
    rewrite !Z.div_div by (try apply Z.pow_pos_nonneg; lia).
    f_equal. replace (Z.pos p~0) with (2 * Z.pos p) by lia.
    rewrite Z.pow_twice_r. ring.
  - rewrite shr_1_m by assumption. reflexivity.
Qed.

(** Rounding a mantissa of [d >= 53] bits yields a finite float with a
    mantissa of 53 bits. *)
Lemma binary_round_aux_finite s m e l d :
  53 <= d -> 2 ^ (d - 1) <= m < 2 ^ d -> -1074 <= e + d - 53 <= 970 ->
  exists m' e',
    binary_round_aux prec emax s m e l = S754_finite s m' e'
    /\ 2 ^ 52 <= Z.pos m' < 2 ^ 53 /\ e + d - 53 <= e' <= e + d - 52.
Proof.
  intros Hd Hm He. rewrite binary_round_aux_tail.
  assert (Hsh : exists mrs,
             shr_fexp prec emax m e l = (mrs, e + d - 53)
             /\ 2 ^ 52 <= shr_m mrs < 2 ^ 53).
  { unfold shr_fexp. rewrite (Zdigits2_unique m d) by lia.
    rewrite fexp_normal by lia.
    assert (0 < m) by (pose proof (Z.pow_pos_nonneg 2 (d - 1)); lia).
    destruct (d + e - 53 - e) as [|n|n] eqn:Hn; try lia.
    - eexists. split; [simpl; f_equal; lia|].
      rewrite shr_m_of_loc. replace d with 53 in Hm by lia. lia.
    - eexists. split; [simpl; f_equal; lia|].
      rewrite iter_shr_1_m by (rewrite shr_m_of_loc; lia).
      rewrite shr_m_of_loc. rewrite <- Hn.
      replace (d + e - 53 - e) with (d - 53) by lia.
      assert (Hp : 2 ^ (d - 1) = 2 ^ 52 * 2 ^ (d - 53)).
      { rewrite <- Z.pow_add_r by lia. f_equal. lia. }
      assert (Hp' : 2 ^ d = 2 ^ 53 * 2 ^ (d - 53)).
      { rewrite <- Z.pow_add_r by lia. f_equal. lia. }
      assert (0 < 2 ^ (d - 53)) by (apply Z.pow_pos_nonneg; lia).
      split.
      + apply Z.div_le_lower_bound; lia.
      + apply Z.div_lt_upper_bound; lia. }
  destruct Hsh as (mrs & -> & Hmrs). cbn [fst snd].
  destruct (round_tail_53 s mrs (e + d - 53) Hmrs ltac:(lia))
    as (m' & e' & -> & _ & Hm' & He').
  exists m', e'. repeat split; lia.
Qed.

Lemma binary_round_int s p :
  Z.pos p < 2 ^ 53 ->
  exists m e,
    binary_round prec emax s p 0 = S754_finite s m e
    /\ 2 ^ 52 <= Z.pos m < 2 ^ 53 /\ -52 <= e <= 1.
Proof.
  intros Hp. unfold binary_round.
  destruct (Zdigits2_bounds (Z.pos p)) as [Hd [Hlo Hhi]]; [lia|].
  pose proof (Zdigits2_le (Z.pos p) 53 ltac:(lia) Hp) as Hd'.
  change (Z.pos (digits2_pos p)) with (Zdigits2 (Z.pos p)).
  set (d := Zdigits2 (Z.pos p)) in *.
  rewrite fexp_normal by lia.
  assert (Hal : exists mz,
             shl_align p 0 (d + 0 - 53) = (mz, d - 53)
             /\ 2 ^ 52 <= Z.pos mz < 2 ^ 53).
  { unfold shl_align. destruct (d + 0 - 53 - 0) as [|n|n] eqn:Hn; try lia.
    - exists p. split; [f_equal; lia|]. replace d with 53 in * by lia. lia.
    - exists (Pos.iter xO p n). split; [f_equal; lia|].
      change (Pos.iter xO p n) with (shift (Z.pos n) p).
      rewrite shift_equiv, Z.shiftl_mul_pow2 by lia.
      replace (Z.pos n) with (53 - d) by lia.
      assert (Hp52 : 2 ^ 52 = 2 ^ (d - 1) * 2 ^ (53 - d)).
      { rewrite <- Z.pow_add_r by lia. f_equal. lia. }
      assert (Hp53 : 2 ^ 53 = 2 ^ d * 2 ^ (53 - d)).
      { rewrite <- Z.pow_add_r by lia. f_equal. lia. }
      assert (0 < 2 ^ (53 - d)) by (apply Z.pow_pos_nonneg; lia).
      rewrite Hp52, Hp53. nia. }
  destruct Hal as (mz & -> & Hmz).
  destruct (binary_round_aux_finite s (Z.pos mz) (d - 53) loc_Exact 53)
    as (m & e & -> & Hm & He); [lia..|].
  exists m, e. repeat split; lia.
Qed.

(** [float(z)] is a finite, nonzero float when [0 < |z| < 2^53]. *)
Lemma Z2F_finite z :
  z <> 0 -> - 2 ^ 53 < z < 2 ^ 53 ->
  exists m e,
    Z2F z = S754_finite (z <? 0) m e
    /\ 2 ^ 52 <= Z.pos m < 2 ^ 53 /\ -52 <= e <= 1.
Proof.
  intros Hz Hr. unfold Z2F, binary_normalize.
  destruct z as [|p|p]; [contradiction | |].
  - apply binary_round_int. lia.
  - apply binary_round_int. lia.
Qed.

Lemma float_of_int_ok z :
  - 2 ^ 53 < z < 2 ^ 53 -> float_of_int z = Ok (Z2F z).
Proof.
  intros Hr. unfold float_of_int.
  destruct (Z.eq_dec z 0) as [->|Hz]; [reflexivity|].
  destruct (Z2F_finite z Hz Hr) as (m & e & -> & _). reflexivity.
Qed.

Lemma SFmul_finite s1 m1 e1 s2 m2 e2 :
  2 ^ 52 <= Z.pos m1 < 2 ^ 53 -> 2 ^ 52 <= Z.pos m2 < 2 ^ 53 ->
  -1074 <= e1 + e2 + 52 -> e1 + e2 + 53 <= 970 ->
  exists m e,
    SFmul prec emax (S754_finite s1 m1 e1) (S754_finite s2 m2 e2)
    = S754_finite (xorb s1 s2) m e
    /\ 2 ^ 52 <= Z.pos m < 2 ^ 53 /\ e1 + e2 + 52 <= e <= e1 + e2 + 54.
Proof.
  intros H1 H2 Hlo Hhi. unfold SFmul. rewrite Pos2Z.inj_mul.
  assert (HP : 2 ^ 104 <= Z.pos m1 * Z.pos m2 < 2 ^ 106).
  { change (2 ^ 104) with (2 ^ 52 * 2 ^ 52).
    change (2 ^ 106) with (2 ^ 53 * 2 ^ 53). nia. }
  destruct (Z.lt_ge_cases (Z.pos m1 * Z.pos m2) (2 ^ 105)).
  - destruct (binary_round_aux_finite (xorb s1 s2) (Z.pos m1 * Z.pos m2)
                (e1 + e2) loc_Exact 105) as (m & e & -> & Hm & He);
      [lia | change (105 - 1) with 104; lia | lia |].
    exists m, e. repeat split; lia.
  - destruct (binary_round_aux_finite (xorb s1 s2) (Z.pos m1 * Z.pos m2)
                (e1 + e2) loc_Exact 106) as (m & e & -> & Hm & He);
      [lia | change (106 - 1) with 105; lia | lia |].
    exists m, e. repeat split; lia.
Qed.

Lemma SFdiv_finite s1 m1 e1 s2 m2 e2 :
  2 ^ 52 <= Z.pos m1 < 2 ^ 53 -> 2 ^ 52 <= Z.pos m2 < 2 ^ 53 ->
  -1074 <= e1 - e2 - 53 -> e1 - e2 - 52 <= 970 ->
  exists m e,
    SFdiv prec emax (S754_finite s1 m1 e1) (S754_finite s2 m2 e2)
    = S754_finite (xorb s1 s2) m e
    /\ 2 ^ 52 <= Z.pos m < 2 ^ 53.
Proof.
  intros H1 H2 Hlo Hhi. unfold SFdiv, SFdiv_core_binary.
  rewrite (Zdigits2_unique (Z.pos m1) 53), (Zdigits2_unique (Z.pos m2) 53) by lia.
  cbv zeta.
  assert (He : Z.min (fexp prec emax (53 + e1 - (53 + e2))) (e1 - e2)
               = e1 - e2 - 53).
  { unfold fexp, emin, prec, emax. lia. }
  rewrite He. clear He.
  replace (e1 - e2 - (e1 - e2 - 53)) with 53 by lia.
  cbv iota. rewrite Z.shiftl_mul_pow2 by lia.
  pose proof (Z_div_mod (Z.pos m1 * 2 ^ 53) (Z.pos m2) ltac:(lia)) as Hdiv.
  destruct (Z.div_eucl (Z.pos m1 * 2 ^ 53) (Z.pos m2)) as [q r].
  destruct Hdiv as [Hqr Hr].
  assert (Hq : 2 ^ 52 <= q < 2 ^ 54).
  { remember (Z.pos m1) as a. remember (Z.pos m2) as b.
    change (2 ^ 54) with (2 * 2 ^ 53). change (2 ^ 53) with (2 * 2 ^ 52) in *.
    remember (2 ^ 52) as T. assert (0 < T) by (subst T; reflexivity).
    clear HeqT Heqa Heqb. split.
    - assert (T * b < (q + 1) * b) by nia. nia.
    - assert (q * b < 2 * (2 * T) * b) by nia. nia. }
  destruct (Z.lt_ge_cases q (2 ^ 53)).
  - destruct (binary_round_aux_finite (xorb s1 s2) q (e1 - e2 - 53)
                (new_location (Z.pos m2) r) 53) as (m & e & -> & Hm & _);
      [lia | change (53 - 1) with 52; lia | lia |].
    exists m, e. split; [reflexivity | lia].
  - destruct (binary_round_aux_finite (xorb s1 s2) q (e1 - e2 - 53)
                (new_location (Z.pos m2) r) 54) as (m & e & -> & Hm & _);
      [lia | change (54 - 1) with 53; lia | lia |].
    exists m, e. split; [reflexivity | lia].
Qed.

(** The frame rate [(frames - 1) * 1e6 / dt_total]: no exception, and a
    finite float, for a frame count below [2^53] and a nonzero
    [dt_total]. *)
Lemma fps_defined k d :
  0 <= k < 2 ^ 53 -> d <> 0 -> - 2 ^ 53 < d < 2 ^ 53 ->
  exists x f,
    int_mul_float k F1e6 = Ok x /\ float_div_int x d = Ok f
    /\ is_finite f = true /\ (k = 0 -> is_zero f = true).
Proof.
  intros Hk Hd Hdr. unfold int_mul_float, float_div_int.
  rewrite !float_of_int_ok by lia.
  destruct (Z2F_finite d Hd Hdr) as (md & ed & -> & Hmd & Hed).
  unfold float_truediv. cbn [is_zero].
  destruct (Z.eq_dec k 0) as [->|Hk0].
  - eexists _, _. split; [reflexivity|]. split; [reflexivity|].
    split; [reflexivity|]. intros _. reflexivity.
  - destruct (Z2F_finite k Hk0 ltac:(lia)) as (mk & ek & -> & Hmk & Hek).
    destruct (SFmul_finite (k <? 0) mk ek false 8589934592000000 (-33))
      as (mx & ex & Hmul & Hmx & Hex); [lia..|].
    destruct (SFdiv_finite (xorb (k <? 0) false) mx ex (d <? 0) md ed)
      as (mf & ef & Hdiv & Hmf); [lia..|].
    exists (S754_finite (xorb (k <? 0) false) mx ex).
    exists (S754_finite (xorb (xorb (k <? 0) false) (d <? 0)) mf ef).
    split; [unfold float_mul, F1e6; rewrite Hmul; reflexivity|].
    split; [rewrite Hdiv; reflexivity|].
    split; [reflexivity|]. intros ->. contradiction.
Qed.

(** The closed form of the frame rate inherits both facts. *)
Lemma fps_of_finite k d :
  0 <= k < 2 ^ 53 -> d <> 0 -> - 2 ^ 53 < d < 2 ^ 53 ->
  is_finite (fps_of (k + 1) d) = true
  /\ (k = 0 -> is_zero (fps_of (k + 1) d) = true).
Proof.
  intros Hk Hd Hdr.
  destruct (fps_defined k d Hk Hd Hdr) as (x & f & Hx & Hf & Hfin & Hzero).
  assert (Hf_eq : f = fps_of (k + 1) d).
  { unfold int_mul_float, float_div_int, float_truediv in Hx, Hf.
    rewrite float_of_int_ok in Hx, Hf by lia.
    injection Hx as <-.
    unfold fps_of. replace (k + 1 - 1) with k by lia.
    destruct (is_zero (Z2F d)); [discriminate|].
    injection Hf as <-. reflexivity. }
  subst f. split; assumption.
Qed.

(** ** [read_file_info] on every file *)

Lemma lift_ok {A} (r : result A) a fh :
  r = Ok a -> OS.lift r fh = Ok (a, fh).
Proof. intros ->. reflexivity. Qed.

Lemma lift_raise {A} (r : result A) e fh :
  r = Raise e -> OS.lift r fh = Raise e.
Proof. intros ->. reflexivity. Qed.

Lemma t0_ts_at_range c p : 0 <= t0 (ts_at c p) < 2 ^ 32.
Proof. unfold t0, ts_at. simpl. apply u32_le_at_range. Qed.

(** The part of [read_file_info] up to the third timestamp. *)
Lemma read_file_info_short c p w h reset :
  0 <= p -> 0 <= w * h ->
  Z.of_nat (length c) < 52 + (w * h + 12) ->
  read_file_info w h reset (OS.mkfd c p) = Raise StructError.
Proof.
  intros Hp Hwh Hlen. unfold read_file_info.
  rewrite (bind_ok _ _ _ _ _ (lseek_tell c p Hp)).
  rewrite (bind_ok _ _ _ _ _ (lseek_set c p HEADER_SIZE ltac:(unfold HEADER_SIZE; lia))).
  unfold HEADER_SIZE.
  destruct (Z.lt_ge_cases (Z.of_nat (length c)) (40 + 12)) as [Hs|Hl].
  { apply bind_raise. apply read_timestamp_short; lia. }
  rewrite (bind_ok _ _ _ _ _ (read_timestamp_ok c 40 false ltac:(lia) Hl)).
  rewrite (bind_ok _ _ _ _ _ (lseek_cur c (40 + 12) (w * h) ltac:(lia))).
  apply bind_raise. apply read_timestamp_short; lia.
Qed.

Lemma read_file_info_long c p w h reset :
  0 <= p -> 0 <= w * h ->
  52 + (w * h + 12) <= Z.of_nat (length c) < 2 ^ 53 ->
  read_file_info w h reset (OS.mkfd c p)
  = if decide (t0 (ts_at c (Z.of_nat (length c) - (w * h + 12))) = t0 (ts_at c 40))
    then Raise ZeroDivisionError
    else Ok (file_info_of c w h,
             OS.mkfd c (if reset then p
                        else Z.of_nat (length c) - (w * h + 12) + 12)).
Proof.
  intros Hp Hwh Hlen. unfold read_file_info.
  set (L := Z.of_nat (length c)) in *.
  rewrite (bind_ok _ _ _ _ _ (lseek_tell c p Hp)).
  rewrite (bind_ok _ _ _ _ _ (lseek_set c p HEADER_SIZE ltac:(unfold HEADER_SIZE; lia))).
  unfold HEADER_SIZE.
  rewrite (bind_ok _ _ _ _ _ (read_timestamp_ok c 40 false ltac:(lia) ltac:(fold L; lia))).
  rewrite (bind_ok _ _ _ _ _ (lseek_cur c (40 + 12) (w * h) ltac:(lia))).
  replace (40 + 12 + w * h) with (52 + w * h) by lia.
  rewrite (bind_ok _ _ _ _ _
             (read_timestamp_ok c (52 + w * h) false ltac:(lia) ltac:(fold L; lia))).
  rewrite (bind_ok _ _ _ _ _
             (lseek_end c (52 + w * h + 12) (- (w * h + 12)) ltac:(fold L; lia))).
  fold L. replace (L + - (w * h + 12)) with (L - (w * h + 12)) by lia.
  rewrite (bind_ok _ _ _ _ _
             (read_timestamp_ok c (L - (w * h + 12)) false ltac:(lia) ltac:(fold L; lia))).
  destruct (int_truediv_floor (L - (w * h + 12) - 40) (w * h + 12))
    as (m & e & Hdiv & Hint); [lia | lia |].
  rewrite (bind_ok _ _ _ _ _ (lift_ok _ _ _ Hdiv)).
  rewrite (bind_ok _ _ _ _ _ (lift_ok _ _ _ Hint)).
  set (k := (L - (w * h + 12) - 40) / (w * h + 12)).
  assert (Hk : 0 <= k < 2 ^ 53).
  { unfold k. split.
    - apply Z.div_pos; lia.
    - apply Z.div_lt_upper_bound; nia. }
  replace (k + 1 - 1) with k by lia.
  pose proof (t0_ts_at_range c 40) as Hf.
  pose proof (t0_ts_at_range c (52 + w * h)) as Hs.
  pose proof (t0_ts_at_range c (L - (w * h + 12))) as Hl.
  set (tf := t0 (ts_at c 40)) in *.
  set (tsec := t0 (ts_at c (52 + w * h))) in *.
  set (tl := t0 (ts_at c (L - (w * h + 12)))) in *.
  assert (H53 : 2 ^ 32 < 2 ^ 53) by reflexivity.
  destruct (decide (tl = tf)) as [Heq|Hne].
  - (* equal first and last stamps: the division raises *)
    assert (Hx : int_mul_float k F1e6 = Ok (float_mul (Z2F k) F1e6)).
    { unfold int_mul_float. rewrite float_of_int_ok by lia. reflexivity. }
    rewrite (bind_ok _ _ _ _ _ (lift_ok _ _ _ Hx)).
    apply bind_raise. apply lift_raise.
    replace (tl - tf) with 0 by lia. reflexivity.
  - destruct (fps_defined k (tl - tf)) as (x & f & Hx & Hfps & _); [lia..|].
    rewrite (bind_ok _ _ _ _ _ (lift_ok _ _ _ Hx)).
    rewrite (bind_ok _ _ _ _ _ (lift_ok _ _ _ Hfps)).
    assert (Hdur : int_mul_float (tl - tf + (tsec - tf)) F1e_6
                   = Ok (duration_of (tsec - tf) (tl - tf))).
    { unfold int_mul_float. rewrite float_of_int_ok by lia. reflexivity. }
    rewrite (bind_ok _ _ _ _ _ (lift_ok _ _ _ Hdur)).
    assert (Hf_eq : f = fps_of (k + 1) (tl - tf)).
    { unfold int_mul_float, float_div_int, float_truediv in Hx, Hfps.
      rewrite float_of_int_ok in Hx, Hfps by lia.
      injection Hx as <-.
      unfold fps_of. replace (k + 1 - 1) with k by lia.
      destruct (is_zero (Z2F (tl - tf))); [discriminate|].
      injection Hfps as <-. reflexivity. }
    subst f.
    unfold file_info_of. fold L. fold tf tsec tl. fold k.
    destruct reset.
    + rewrite (bind_ok _ _ _ _ _ (lseek_set c _ p Hp)). reflexivity.
    + reflexivity.
Qed.

(** ** [read_frame] and the loop of [read_data] *)

Lemma read_frame_any c p w h reset :
  0 <= p -> 0 <= w * h -> w * h <= OS.BUFFER_MAX ->
  read_frame w h reset (OS.mkfd c p)
  = Ok (pixels_at c p (w * h),
        OS.mkfd c (if reset then p
                   else p + Z.of_nat (length (slice c p (w * h))))).
Proof.
  intros Hp Hwh Hmax. unfold read_frame.
  rewrite (bind_ok _ _ _ _ _ (lseek_tell c p Hp)).
  rewrite (bind_ok _ _ _ _ _ (read_any c p (w * h) Hwh Hmax)).
  destruct reset.
  - rewrite (bind_ok _ _ _ _ _ (lseek_set c _ p Hp)). reflexivity.
  - reflexivity.
Qed.

Lemma read_frame_full c p w h :
  0 <= p -> 0 <= w * h -> w * h <= OS.BUFFER_MAX ->
  p + w * h <= Z.of_nat (length c) ->
  read_frame w h false (OS.mkfd c p)
  = Ok (pixels_at c p (w * h), OS.mkfd c (p + w * h)).
Proof.
  intros Hp Hwh Hmax Hlen. rewrite read_frame_any by assumption.
  rewrite slice_length by lia. rewrite Z2Nat.id by lia. reflexivity.
Qed.

Lemma pixels_at_length c p n :
  0 <= p -> 0 <= n -> p + n <= Z.of_nat (length c) ->
  length (pixels_at c p n) = Z.to_nat n.
Proof.
  intros. unfold pixels_at. rewrite length_map. apply slice_length; lia.
Qed.


Section ExtractionFacts.

Context {image png : Type}.
Variable Image_putdata : Z * Z -> list Z -> result image.
Variable Image_save : nat -> image -> result png.

(** Decoding record [i] from its first byte. *)
Lemma decode_record c w h (i : nat) :
  0 <= w * h -> w * h <= OS.BUFFER_MAX ->
  40 + (Z.of_nat i + 1) * (w * h + 12) <= Z.of_nat (length c) ->
  (let* ts := read_timestamp false in
   let* frame := read_frame w h false in
   OS.ret (ts, frame)) (OS.mkfd c (40 + Z.of_nat i * (w * h + 12)))
  = Ok ((ts_at c (40 + Z.of_nat i * (w * h + 12)),
         pixels_at c (40 + Z.of_nat i * (w * h + 12) + 12) (w * h)),
        OS.mkfd c (40 + Z.of_nat (S i) * (w * h + 12))).
Proof.
  intros Hwh Hmax Hlen.
  set (p := 40 + Z.of_nat i * (w * h + 12)).
  assert (Hp : 0 <= p) by (unfold p; nia).
  assert (Hend : p + (w * h + 12) <= Z.of_nat (length c)) by (unfold p; nia).
  rewrite (bind_ok _ _ _ _ _ (read_timestamp_ok c p false Hp ltac:(lia))).
  rewrite (bind_ok _ _ _ _ _ (read_frame_full c (p + 12) w h ltac:(lia) Hwh Hmax ltac:(lia))).
  unfold OS.ret. do 3 f_equal. unfold p. rewrite Nat2Z.inj_succ. ring.
Qed.


(** Files already in the output directory are never touched, whatever
    the image library does. *)
Lemma frame_loop_keeps w h indices : forall s s' r,
  frame_loop Image_putdata Image_save w h indices s = (s', r) ->
  forall i f, st_out s !! i = Some f -> st_out s' !! i = Some f.
Proof.
  induction indices as [|j rest IH]; intros s s' r Hrun i f Hi.
  - simpl in Hrun. injection Hrun as <- _. assumption.
  - simpl in Hrun. destruct (st_out s !! j) as [g|] eqn:Hj.
    + destruct (OS.lseek _ _ _) as [[? fh]|e].
      * eapply IH; [exact Hrun | assumption].
      * injection Hrun as <- _. assumption.
    + destruct (OS.bind _ _ _) as [[[ts frame] fh]|e].
      * destruct (Image_putdata (h, w) frame) as [im|e].
        -- destruct (Image_save j im) as [file|e].
           ++ eapply IH; [exact Hrun|]. simpl.
              rewrite lookup_insert_ne; [assumption|]. congruence.
           ++ injection Hrun as <- _. assumption.
        -- injection Hrun as <- _. assumption.
      * injection Hrun as <- _. assumption.
Qed.

End ExtractionFacts.

(** ** [read_width_and_height] on every attribute file *)

Lemma unpack_H_ok bs :
  length bs = 2%nat -> struct_unpack_H bs = Ok (le_uint bs).
Proof.
  intros H. unfold struct_unpack_H, struct_unpack_uint.
  destruct (decide (length bs = 2%nat)); [reflexivity | contradiction].
Qed.

Lemma unpack_H_short bs :
  length bs <> 2%nat -> struct_unpack_H bs = Raise StructError.
Proof.
  intros H. unfold struct_unpack_H, struct_unpack_uint.
  destruct (decide (length bs = 2%nat)); [contradiction | reflexivity].
Qed.

Lemma read_u16_ok {B} c p q (k : Z -> OS.io B) :
  0 <= q -> q + 2 <= Z.of_nat (length c) ->
  (let* _ := OS.lseek q OS.SEEK_SET in
   let* bs := OS.read 2 in
   let* a := OS.lift (struct_unpack_H bs) in k a) (OS.mkfd c p)
  = k (u16_le_at c q) (OS.mkfd c (q + 2)).
Proof.
  intros Hq Hlen.
  rewrite (bind_ok _ _ _ _ _ (lseek_set c p q Hq)).
  rewrite (bind_ok _ _ _ _ _
             (read_full c q 2 Hq ltac:(lia)
                ltac:(rewrite buffer_max_value; lia) Hlen)).
  unfold OS.bind at 1, OS.lift.
  rewrite unpack_H_ok by (rewrite slice_length; lia).
  rewrite le_uint_slice2 by lia. reflexivity.
Qed.

Lemma read_u16_short {B} c p q (k : Z -> OS.io B) :
  0 <= q -> Z.of_nat (length c) < q + 2 ->
  (let* _ := OS.lseek q OS.SEEK_SET in
   let* bs := OS.read 2 in
   let* a := OS.lift (struct_unpack_H bs) in k a) (OS.mkfd c p)
  = Raise StructError.
Proof.
  intros Hq Hlen.
  rewrite (bind_ok _ _ _ _ _ (lseek_set c p q Hq)).
  rewrite (bind_ok _ _ _ _ _
             (read_any c q 2 ltac:(lia) ltac:(rewrite buffer_max_value; lia))).
  unfold OS.bind at 1, OS.lift.
  rewrite unpack_H_short; [reflexivity|].
  destruct (Z.le_gt_cases (Z.of_nat (length c)) q).
  - rewrite slice_past_end by lia. simpl. lia.
  - pose proof (slice_length_short c q 2). lia.
Qed.

(** With the default offsets: the pair returned holds the field at 37
    first and the field at 19 second. *)
(** The largest frame an attribute file can describe fits the buffer of
    one read. *)
Lemma geometry_fits a p q :
  0 <= u16_le_at a p * u16_le_at a q <= OS.BUFFER_MAX.
Proof.
  pose proof (u16_le_at_range a p). pose proof (u16_le_at_range a q).
  rewrite buffer_max_value. nia.
Qed.

Lemma read_width_and_height_long a :
  39 <= Z.of_nat (length a) ->
  read_width_and_height (Some a) 19 37 = Ok (u16_le_at a 37, u16_le_at a 19).
Proof.
  intros Hlen. unfold read_width_and_height, read_width_and_height_body.
  cbn [OS.open].
  rewrite read_u16_ok by lia. rewrite read_u16_ok by lia. reflexivity.
Qed.

Lemma read_width_and_height_short a :
  Z.of_nat (length a) < 39 ->
  read_width_and_height (Some a) 19 37 = Raise StructError.
Proof.
  intros Hlen. unfold read_width_and_height, read_width_and_height_body.
  cbn [OS.open].
  destruct (Z.lt_ge_cases (Z.of_nat (length a)) 21).
  - rewrite read_u16_short by lia. reflexivity.
  - rewrite read_u16_ok by lia. rewrite read_u16_short by lia. reflexivity.
Qed.

Lemma read_width_and_height_cases attr_file :
  (exists a, attr_file = Some a /\ 39 <= Z.of_nat (length a)
             /\ read_width_and_height attr_file 19 37
                = Ok (u16_le_at a 37, u16_le_at a 19))
  \/ read_width_and_height attr_file 19 37 = Raise StructError
  \/ read_width_and_height attr_file 19 37 = Raise UnboundLocalError.
Proof.
  destruct attr_file as [a|].
  - destruct (Z.lt_ge_cases (Z.of_nat (length a)) 39).
    + right. left. apply read_width_and_height_short. assumption.
    + left. exists a. split; [reflexivity|]. split; [lia|].
      apply read_width_and_height_long. lia.
  - right. right. reflexivity.
Qed.

(** ** [read_data] on every pair of files *)

Lemma frames_bound L stride :
  0 < stride -> 0 <= L - stride - 40 ->
  1 <= (L - stride - 40) / stride + 1
  /\ 40 + ((L - stride - 40) / stride + 1) * stride <= L.
Proof.
  intros Hs Ha.
  pose proof (Z.mul_div_le (L - stride - 40) stride Hs).
  pose proof (Z.div_pos (L - stride - 40) stride Ha Hs).
  remember ((L - stride - 40) / stride) as k. clear Heqk. nia.
Qed.

Lemma frames_file_info_of c w h :
  0 <= w * h -> 52 + (w * h + 12) <= Z.of_nat (length c) ->
  1 <= frames (file_info_of c w h)
  /\ 40 + frames (file_info_of c w h) * (w * h + 12) <= Z.of_nat (length c).
Proof.
  intros Hwh Hlen. unfold file_info_of. cbn [frames].
  apply frames_bound; lia.
Qed.

Section RunFacts.

Context {image png : Type}.
Variable Image_putdata : Z * Z -> list Z -> result image.
Variable Image_save : nat -> image -> result png.

(** The loop on a file that holds all the records it visits: every
    frame decoded is the record at the offset of its index, with
    [w * h] pixels, and only the image library can end the loop with
    an exception. *)
Lemma frame_loop_bounded c w h :
  0 <= w * h -> w * h <= OS.BUFFER_MAX ->
  forall n i0 out dec log s' r,
    40 + Z.of_nat (i0 + n) * (w * h + 12) <= Z.of_nat (length c) ->
    frame_loop Image_putdata Image_save w h (seq i0 n)
      (mkstate (OS.mkfd c (40 + Z.of_nat i0 * (w * h + 12))) out dec log)
    = (s', r) ->
    Forall (decoded_ok c w h) dec ->
    Forall (decoded_ok c w h) (st_decoded s')
    /\ (forall e, r = Some e ->
                  (exists fr, Image_putdata (h, w) fr = Raise e)
                  \/ (exists i im, Image_save i im = Raise e)).
Proof.
  intros Hwh Hmax.
  induction n as [|n IH]; intros i0 out dec log s' r Hlen Hrun Hdec.
  - simpl in Hrun. injection Hrun as <- <-. split; [assumption|].
    intros e He. discriminate.
  - simpl seq in Hrun. simpl frame_loop in Hrun.
    cbn [st_out st_fh st_decoded st_log] in Hrun.
    assert (Hpos : 0 <= 40 + Z.of_nat i0 * (w * h + 12)) by nia.
    destruct (out !! i0) as [f|] eqn:Hout.
    + rewrite lseek_cur in Hrun by lia.
      replace (40 + Z.of_nat i0 * (w * h + 12) + (w * h + 12))
        with (40 + Z.of_nat (S i0) * (w * h + 12)) in Hrun
        by (rewrite Nat2Z.inj_succ; ring).
      eapply IH; [|exact Hrun|assumption].
      replace (S i0 + n)%nat with (i0 + S n)%nat by lia. assumption.
    + rewrite decode_record in Hrun by (try assumption; nia).
      assert (Hdec' : Forall (decoded_ok c w h) (dec ++ [entry c w h i0])).
      { apply Forall_app. split; [assumption|].
        apply Forall_singleton. split; [reflexivity|].
        unfold entry, buffer_of. cbn [snd].
        rewrite pixels_at_length by nia. lia. }
      destruct (Image_putdata (h, w) _) as [im|e] eqn:Hput.
      * destruct (Image_save i0 im) as [file|e] eqn:Hsave.
        -- eapply IH; [|exact Hrun|exact Hdec'].
           replace (S i0 + n)%nat with (i0 + S n)%nat by lia. assumption.
        -- injection Hrun as <- <-. split; [exact Hdec'|].
           intros e' He'. injection He' as <-. right. eauto.
      * injection Hrun as <- <-. split; [exact Hdec'|].
        intros e' He'. injection He' as <-. left. eauto.
Qed.

(** The [try] body on a file with a readable layout. *)
Lemma read_data_body_loop c w h out framerate :
  0 <= w * h ->
  52 + (w * h + 12) <= Z.of_nat (length c) < 2 ^ 53 ->
  t0 (ts_at c (Z.of_nat (length c) - (w * h + 12))) <> t0 (ts_at c 40) ->
  read_data_body Image_putdata Image_save (OS.mkfd c 0) w h out framerate
  = frame_loop Image_putdata Image_save w h
      (seq 0 (Z.to_nat (frames (file_info_of c w h))))
      (mkstate (OS.mkfd c (40 + Z.of_nat 0 * (w * h + 12))) out []
         [MsgInfo (file_info_of c w h)]).
Proof.
  intros Hwh Hlen Hne. unfold read_data_body.
  rewrite read_file_info_long by (try assumption; lia).
  destruct (decide _) as [Heq|_]; [contradiction|].
  cbn [pos_first file_info_of].
  rewrite lseek_set by lia. reflexivity.
Qed.

Lemma read_data_body_short c w h out framerate :
  0 <= w * h ->
  Z.of_nat (length c) < 52 + (w * h + 12) ->
  read_data_body Image_putdata Image_save (OS.mkfd c 0) w h out framerate
  = (mkstate (OS.mkfd c 0) out [] [], Some StructError).
Proof.
  intros Hwh Hlen. unfold read_data_body.
  rewrite read_file_info_short by (try assumption; lia). reflexivity.
Qed.

Lemma read_data_body_zero c w h out framerate :
  0 <= w * h ->
  52 + (w * h + 12) <= Z.of_nat (length c) < 2 ^ 53 ->
  t0 (ts_at c (Z.of_nat (length c) - (w * h + 12))) = t0 (ts_at c 40) ->
  read_data_body Image_putdata Image_save (OS.mkfd c 0) w h out framerate
  = (mkstate (OS.mkfd c 0) out [] [], Some ZeroDivisionError).
Proof.
  intros Hwh Hlen Heq. unfold read_data_body.
  rewrite read_file_info_long by (try assumption; lia).
  destruct (decide _) as [_|Hne]; [reflexivity | contradiction].
Qed.

End RunFacts.



Section RunTheorems.

Context {image png : Type}.
Variable Image_putdata : Z * Z -> list Z -> result image.
Variable Image_save : nat -> image -> result png.

Lemma read_data_body_keeps fh w h out framerate s r :
  read_data_body Image_putdata Image_save fh w h out framerate = (s, r) ->
  forall i f, out !! i = Some f -> st_out s !! i = Some f.
Proof.
  unfold read_data_body. intros Hrun i f Hi.
  destruct (read_file_info w h false fh) as [[info fh1]|e].
  - destruct (OS.lseek _ _ fh1) as [[? fh2]|e].
    + eapply frame_loop_keeps; [exact Hrun | exact Hi].
    + injection Hrun as <- _. exact Hi.
  - injection Hrun as <- _. exact Hi.
Qed.

(** Files already in the output directory survive every call. *)
Lemma read_data_keeps data attr out ff lf q fr sf fo i f :
  out !! i = Some f ->
  out_files (read_data Image_putdata Image_save data attr out ff lf q fr sf fo) !! i = Some f.
Proof.
  intros Hi. unfold read_data.
  destruct (read_width_and_height attr 19 37) as [[w h]|e]; [|exact Hi].
  destruct (OS.open data) as [fh|e]; [|exact Hi].
  destruct (read_data_body Image_putdata Image_save fh w h out fr) as [s r] eqn:Hrun.
  pose proof (read_data_body_keeps _ _ _ _ _ _ _ Hrun i f Hi) as Hs.
  destruct r as [e|]; [|exact Hs].
  destruct (handler e); exact Hs.
Qed.

(** No [OSError] and no [ValueError] gets out of [read_data]. *)
Lemma read_data_raises data attr out ff lf q fr sf fo e :
  outcome (read_data Image_putdata Image_save data attr out ff lf q fr sf fo) = Raise e ->
  handler e = None.
Proof.
  unfold read_data.
  destruct (read_width_and_height_cases attr)
    as [(a & -> & _ & ->) | [-> | ->]].
  - destruct (OS.open data) as [fh|e0].
    + destruct (read_data_body Image_putdata Image_save fh _ _ out fr) as [s r].
      destruct r as [e1|]; [|discriminate].
      destruct (handler e1) eqn:Hh; [discriminate|].
      cbn [outcome]. intros [= <-]. exact Hh.
    + cbn [outcome]. intros [= <-]. reflexivity.
  - cbn [outcome]. intros [= <-]. reflexivity.
  - cbn [outcome]. intros [= <-]. reflexivity.
Qed.

(** A call on files with a readable layout, unfolded to its loop. *)
Lemma read_data_loop c a out ff lf q fr sf fo :
  39 <= Z.of_nat (length a) ->
  let w := u16_le_at a 37 in
  let h := u16_le_at a 19 in
  52 + (w * h + 12) <= Z.of_nat (length c) < 2 ^ 53 ->
  t0 (ts_at c (Z.of_nat (length c) - (w * h + 12))) <> t0 (ts_at c 40) ->
  read_data Image_putdata Image_save (Some c) (Some a) out ff lf q fr sf fo
  = let '(s, r) :=
      frame_loop Image_putdata Image_save w h
        (seq 0 (Z.to_nat (frames (file_info_of c w h))))
        (mkstate (OS.mkfd c (40 + Z.of_nat 0 * (w * h + 12))) out []
           [MsgInfo (file_info_of c w h)]) in
    match r with
    | None => mkrun (Ok tt) (st_out s) (st_decoded s) (st_log s)
    | Some e =>
        match handler e with
        | Some m => mkrun (Ok tt) (st_out s) (st_decoded s) (st_log s ++ [m])
        | None => mkrun (Raise e) (st_out s) (st_decoded s) (st_log s)
        end
    end.
Proof.
  intros Ha w h Hlen Hne. unfold read_data.
  rewrite read_width_and_height_long by assumption. cbn [OS.open].
  fold w h.
  assert (Hwh : 0 <= w * h).
  { pose proof (u16_le_at_range a 37). pose proof (u16_le_at_range a 19).
    subst w h. nia. }
  rewrite read_data_body_loop by assumption. reflexivity.
Qed.



(** On a file with a readable layout every frame decoded is the
    record at the offset of its index, with [w * h] pixels, whatever
    the image library does, and only the image library can raise. *)
Lemma read_data_bounded c a out ff lf q fr sf fo :
  39 <= Z.of_nat (length a) ->
  let w := u16_le_at a 37 in
  let h := u16_le_at a 19 in
  52 + (w * h + 12) <= Z.of_nat (length c) < 2 ^ 53 ->
  t0 (ts_at c (Z.of_nat (length c) - (w * h + 12))) <> t0 (ts_at c 40) ->
  let r := read_data Image_putdata Image_save (Some c) (Some a) out
             ff lf q fr sf fo in
  Forall (decoded_ok c w h) (decoded r)
  /\ (forall e, outcome r = Raise e ->
                (exists frame, Image_putdata (h, w) frame = Raise e)
                \/ (exists i im, Image_save i im = Raise e))
  /\ ((forall sz frame e, Image_putdata sz frame = Raise e -> handler e <> None) ->
      (forall i im e, Image_save i im = Raise e -> handler e <> None) ->
      outcome r = Ok tt).
Proof.
  intros Ha w h Hlen Hne r. subst r.
  rewrite read_data_loop by assumption. fold w h.
  assert (Hwh : 0 <= w * h).
  { pose proof (u16_le_at_range a 37). pose proof (u16_le_at_range a 19).
    subst w h. nia. }
  destruct (frames_file_info_of c w h Hwh ltac:(lia)) as [Hone Hfit].
  destruct (frame_loop Image_putdata Image_save w h _ _) as [s r] eqn:Hrun.
  assert (Hmax : w * h <= OS.BUFFER_MAX) by (subst w h; apply geometry_fits).
  destruct (frame_loop_bounded Image_putdata Image_save c w h Hwh Hmax
              (Z.to_nat (frames (file_info_of c w h))) 0%nat out []
              [MsgInfo (file_info_of c w h)] s r) as [Hall Hexn].
  { rewrite Nat.add_0_l, Z2Nat.id by lia. exact Hfit. }
  { exact Hrun. }
  { constructor. }
  destruct r as [e|].
  - pose proof (Hexn e eq_refl) as Hsrc.
    destruct (handler e) eqn:Hh; cbn [decoded outcome].
    + split; [exact Hall|]. split; [discriminate|]. reflexivity.
    + split; [exact Hall|]. split.
      * intros e' [= <-]. exact Hsrc.
      * intros Hc1 Hc2. exfalso.
        destruct Hsrc as [(frm & Hput) | (i & im & Hsave)].
        -- exact (Hc1 _ _ _ Hput Hh).
        -- exact (Hc2 _ _ _ Hsave Hh).
  - cbn [decoded outcome]. split; [exact Hall|].
    split; [discriminate | reflexivity].
Qed.

End RunTheorems.


(** * A call of [read_data] in closed form *)

(** ** The loop of [read_data] as a function of the records *)

Section StepsFacts.

Context {image png : Type}.
Variable Image_putdata : Z * Z -> list Z -> result image.
Variable Image_save : nat -> image -> result png.

(** On a file that holds the records visited, the loop is [frame_steps]. *)
Lemma frame_loop_steps c w h :
  0 <= w * h -> w * h <= OS.BUFFER_MAX ->
  forall n i0 (out : gmap nat png) dec log s' r,
    40 + Z.of_nat (i0 + n) * (w * h + 12) <= Z.of_nat (length c) ->
    frame_loop Image_putdata Image_save w h (seq i0 n)
      (mkstate (OS.mkfd c (40 + Z.of_nat i0 * (w * h + 12))) out dec log)
    = (s', r) ->
    frame_steps Image_putdata Image_save c w h (seq i0 n) out dec log
    = (st_out s', st_decoded s', st_log s', r).
Proof.
  intros Hwh Hmax.
  induction n as [|n IH]; intros i0 out dec log s' r Hlen Hrun.
  - simpl in Hrun. injection Hrun as <- <-. reflexivity.
  - simpl seq in Hrun. simpl frame_loop in Hrun.
    cbn [st_out st_fh st_decoded st_log] in Hrun.
    simpl seq. simpl frame_steps.
    assert (Hpos : 0 <= 40 + Z.of_nat i0 * (w * h + 12)) by nia.
    destruct (out !! i0) as [f|] eqn:Hout.
    + rewrite lseek_cur in Hrun by lia.
      replace (40 + Z.of_nat i0 * (w * h + 12) + (w * h + 12))
        with (40 + Z.of_nat (S i0) * (w * h + 12)) in Hrun
        by (rewrite Nat2Z.inj_succ; ring).
      apply IH; [|exact Hrun].
      replace (S i0 + n)%nat with (i0 + S n)%nat by lia. assumption.
    + rewrite decode_record in Hrun by (try assumption; nia).
      change (buffer_of (entry c w h i0))
        with (pixels_at c (40 + Z.of_nat i0 * (w * h + 12) + 12) (w * h)).
      destruct (Image_putdata (h, w) _) as [im|e].
      * destruct (Image_save i0 im) as [file|e].
        -- apply IH; [|exact Hrun].
           replace (S i0 + n)%nat with (i0 + S n)%nat by lia. assumption.
        -- injection Hrun as <- <-. reflexivity.
      * injection Hrun as <- <-. reflexivity.
Qed.

(** A call on readable files is its loop over [range(frames)]. *)
Lemma read_data_steps c a (out : gmap nat png) ff lf q fr sf fo :
  readable c a -> Z.of_nat (length c) < 2 ^ 53 ->
  read_data Image_putdata Image_save (Some c) (Some a) out ff lf q fr sf fo
  = run_of_steps
      (frame_steps Image_putdata Image_save c (width_of a) (height_of a)
         (seq 0 (frame_count c a)) out []
         [MsgInfo (file_info_of c (width_of a) (height_of a))]).
Proof.
  unfold readable, frame_count, width_of, height_of.
  intros (Ha & Hlen & Hne) H53.
  rewrite read_data_loop by (try assumption; lia).
  set (w := u16_le_at a 37) in *. set (h := u16_le_at a 19) in *.
  assert (Hwh : 0 <= w * h).
  { pose proof (u16_le_at_range a 37). pose proof (u16_le_at_range a 19).
    subst w h. nia. }
  destruct (frames_file_info_of c w h Hwh ltac:(lia)) as [Hone Hfit].
  destruct (frame_loop Image_putdata Image_save w h _ _) as [s r] eqn:Hrun.
  apply frame_loop_steps in Hrun; [|assumption| |].
  - rewrite Hrun. unfold run_of_steps. reflexivity.
  - subst w h. apply geometry_fits.
  - rewrite Nat.add_0_l, Z2Nat.id by lia. exact Hfit.
Qed.

(** A call on other files never reaches the loop: it raises, and leaves
    the output directory as it was. *)
Lemma read_data_unreadable data attr (out : gmap nat png) ff lf q fr sf fo :
  (forall c, data = Some c -> Z.of_nat (length c) < 2 ^ 53) ->
  (forall c a, data = Some c -> attr = Some a -> ~ readable c a) ->
  let r := read_data Image_putdata Image_save data attr out ff lf q fr sf fo in
  out_files r = out /\ decoded r = []
  /\ exists e, outcome r = Raise e.
Proof.
  intros Hsize Hnot. cbv zeta. unfold read_data.
  destruct (read_width_and_height_cases attr)
    as [(a & -> & Ha & Hwh) | [Hwh | Hwh]]; rewrite Hwh.
  2,3: cbn; eauto.
  destruct data as [c|]; [|cbn; eauto].
  specialize (Hsize c eq_refl). specialize (Hnot c a eq_refl eq_refl).
  cbn [OS.open].
  assert (Hnn : 0 <= u16_le_at a 37 * u16_le_at a 19).
  { pose proof (u16_le_at_range a 37). pose proof (u16_le_at_range a 19). nia. }
  destruct (Z.lt_ge_cases (Z.of_nat (length c))
              (52 + (u16_le_at a 37 * u16_le_at a 19 + 12))) as [Hs|Hl].
  { rewrite read_data_body_short by assumption. cbn. eauto. }
  destruct (Z.eq_dec
              (t0 (ts_at c (Z.of_nat (length c)
                            - (u16_le_at a 37 * u16_le_at a 19 + 12))))
              (t0 (ts_at c 40))) as [Heq|Hne].
  { rewrite read_data_body_zero by (try assumption; lia). cbn. eauto. }
  exfalso. apply Hnot. unfold readable, width_of, height_of.
  repeat split; try assumption; lia.
Qed.

End StepsFacts.

Section StepsInvariants.

Context {image png : Type}.
Variable Image_putdata : Z * Z -> list Z -> result image.
Variable Image_save : nat -> image -> result png.





(** With an image library that never fails the loop runs to its end,
    decodes every record whose output is missing and writes its file. *)
Lemma frame_steps_total c w h (out0 : gmap nat png) indices :
  (forall sz fr, exists im, Image_putdata sz fr = Ok im) ->
  (forall i im, exists f, Image_save i im = Ok f) ->
  NoDup indices ->
  forall (out : gmap nat png) dec log out' dec' log' r,
    (forall j, j ∈ indices -> out !! j = out0 !! j) ->
    frame_steps Image_putdata Image_save c w h indices out dec log
    = (out', dec', log', r) ->
    r = None
    /\ dec' = dec ++ map (entry c w h)
                       (filter (fun i => out0 !! i = None) indices)
    /\ (forall j,
          out' !! j
          = match out !! j with
            | Some f => Some f
            | None =>
                if decide (j ∈ indices)
                then saved Image_putdata Image_save c w h j
                else None
            end).
Proof.
  intros Hput Hsave.
  induction indices as [|i rest IH]; intros Hnd out dec log out' dec' log' r Hag Hrun.
  - cbn [frame_steps] in Hrun. injection Hrun as <- <- _ <-.
    split; [reflexivity|]. split; [rewrite app_nil_r; reflexivity|].
    intros j. destruct (out !! j); [reflexivity|].
    destruct (decide (j ∈ [])) as [Hin|_]; [|reflexivity].
    apply elem_of_nil in Hin. contradiction.
  - apply NoDup_cons in Hnd. destruct Hnd as [Hni Hnd].
    cbn [frame_steps] in Hrun.
    assert (Hi0 : out !! i = out0 !! i) by (apply Hag; apply elem_of_cons; auto).
    destruct (out !! i) as [g|] eqn:Hi.
    + rewrite filter_cons_False by (rewrite <- Hi0; discriminate).
      assert (Hag' : forall j, j ∈ rest -> (out) !! j = out0 !! j);
        [|destruct (IH Hnd _ _ _ _ _ _ _ Hag' Hrun) as (-> & -> & Hout)].
      { intros j Hj. apply Hag. apply elem_of_cons. auto. }
      split; [reflexivity|]. split; [reflexivity|].
      intros j. rewrite Hout. destruct (out !! j) as [f|] eqn:Hj; [reflexivity|].
      assert (Hji : j <> i) by congruence.
      destruct (decide (j ∈ rest)) as [Hin|Hnin];
        destruct (decide (j ∈ i :: rest)) as [Hin'|Hnin']; try reflexivity.
      * exfalso. apply Hnin'. apply elem_of_cons. auto.
      * exfalso. apply elem_of_cons in Hin'. destruct Hin'; contradiction.
    + rewrite filter_cons_True by (rewrite <- Hi0; reflexivity).
      destruct (Hput (h, w) (buffer_of (entry c w h i))) as [im Him].
      destruct (Hsave i im) as [file Hfile].
      rewrite Him, Hfile in Hrun.
      assert (Hag' : forall j, j ∈ rest -> (<[i:=file]> out) !! j = out0 !! j);
        [|destruct (IH Hnd _ _ _ _ _ _ _ Hag' Hrun) as (-> & -> & Hout)].
      { intros j Hj. rewrite lookup_insert_ne by (intros ->; contradiction).
        apply Hag. apply elem_of_cons. auto. }
      split; [reflexivity|]. split; [rewrite <- app_assoc; reflexivity|].
      intros j. rewrite Hout. destruct (decide (i = j)) as [<-|Hne].
      * rewrite lookup_insert_eq, Hi.
        destruct (decide (i ∈ i :: rest)) as [_|Hnin'].
        -- unfold saved. rewrite Him, Hfile. reflexivity.
        -- exfalso. apply Hnin'. apply elem_of_cons. auto.
      * rewrite lookup_insert_ne by assumption.
        destruct (out !! j) as [f|]; [reflexivity|].
        destruct (decide (j ∈ rest)) as [Hin|Hnin];
          destruct (decide (j ∈ i :: rest)) as [Hin'|Hnin']; try reflexivity.
        -- exfalso. apply Hnin'. apply elem_of_cons. auto.
        -- exfalso. apply elem_of_cons in Hin'. destruct Hin'; [congruence|contradiction].
Qed.

Lemma saved_total c w h j :
  (forall sz fr, exists im, Image_putdata sz fr = Ok im) ->
  (forall i im, exists f, Image_save i im = Ok f) ->
  exists f, saved Image_putdata Image_save c w h j = Some f.
Proof.
  intros Hput Hsave. unfold saved.
  destruct (Hput (h, w) (buffer_of (entry c w h j))) as [im ->].
  destruct (Hsave j im) as [f ->]. eauto.
Qed.

End StepsInvariants.

Lemma filter_none {A} (P : A -> Prop) `{!forall x, Decision (P x)} (l : list A) :
  (forall x, x ∈ l -> ~ P x) -> filter P l = [].
Proof.
  induction l as [|x l IH]; intros Hno; [reflexivity|].
  rewrite filter_cons_False by (apply Hno; apply elem_of_cons; auto).
  apply IH. intros y Hy. apply Hno. apply elem_of_cons. auto.
Qed.


Lemma readable_or_not (data attr : option (list byte)) :
  (exists c a, data = Some c /\ attr = Some a /\ readable c a)
  \/ (forall c a, data = Some c -> attr = Some a -> ~ readable c a).
Proof.
  destruct data as [c|]; [|right; intros ? ? [=]].
  destruct attr as [a|]; [|right; intros ? ? _ [=]].
  destruct (decide (readable c a)) as [Hr|Hn].
  - left. eauto.
  - right. intros c' a' [= <-] [= <-]. exact Hn.
Qed.


(** The directory a call leaves with an image library that does not
    fail, on readable files. *)
Lemma read_data_directory {image png : Type}
    (Image_putdata : Z * Z -> list Z -> result image)
    (Image_save : nat -> image -> result png)
    c a (out : gmap nat png) ff lf q fr sf fo :
  (forall sz frame, exists im, Image_putdata sz frame = Ok im) ->
  (forall i im, exists f, Image_save i im = Ok f) ->
  readable c a -> Z.of_nat (length c) < 2 ^ 53 ->
  let r := read_data Image_putdata Image_save (Some c) (Some a) out
             ff lf q fr sf fo in
  outcome r = Ok tt
  /\ decoded r
     = map (entry c (width_of a) (height_of a))
         (filter (fun i => out !! i = None) (seq 0 (frame_count c a)))
  /\ (forall j,
        out_files r !! j
        = match out !! j with
          | Some f => Some f
          | None =>
              if decide (j < frame_count c a)%nat
              then saved Image_putdata Image_save c (width_of a) (height_of a) j
              else None
          end).
Proof.
  intros Hput Hsave Hr H53. cbv zeta.
  rewrite read_data_steps by assumption.
  destruct (frame_steps Image_putdata Image_save c (width_of a) (height_of a)
              (seq 0 (frame_count c a)) out []
              [MsgInfo (file_info_of c (width_of a) (height_of a))])
    as [[[out' dec'] log'] r] eqn:Hrun.
  destruct (frame_steps_total Image_putdata Image_save c _ _ out _ Hput Hsave
              (NoDup_seq 0 (frame_count c a)) _ _ _ _ _ _ _
              (fun j _ => eq_refl) Hrun) as (-> & -> & Hout).
  split; [reflexivity|]. split; [reflexivity|].
  intros j. cbn [run_of_steps out_files]. rewrite Hout.
  destruct (out !! j); [reflexivity|].
  destruct (decide (j ∈ seq 0 (frame_count c a))) as [Hin|Hnin];
    destruct (decide (j < frame_count c a)%nat) as [Hlt|Hge]; try reflexivity.
  - apply elem_of_seq in Hin. lia.
  - exfalso. apply Hnin. apply elem_of_seq. lia.
Qed.

Section StepsLog.

Context {image png : Type}.
Variable Image_putdata : Z * Z -> list Z -> result image.
Variable Image_save : nat -> image -> result png.

(** The lines the loop prints: one for each index it reaches, in the
    order of the indices; all of them when the loop comes to its end. *)
Lemma frame_steps_log c w h (out0 : gmap nat png) indices :
  NoDup indices ->
  forall (out : gmap nat png) dec log out' dec' log' r,
    (forall j, j ∈ indices -> out !! j = out0 !! j) ->
    frame_steps Image_putdata Image_save c w h indices out dec log
    = (out', dec', log', r) ->
    exists js,
      js `prefix_of` indices
      /\ log' = log ++ map (line_of out0) js
      /\ (r = None -> js = indices).
Proof.
  induction indices as [|i rest IH];
    intros Hnd out dec log out' dec' log' r Hag Hrun.
  - cbn [frame_steps] in Hrun. injection Hrun as _ _ <- <-.
    exists []. split; [reflexivity|]. split; [|reflexivity].
    rewrite app_nil_r. reflexivity.
  - apply NoDup_cons in Hnd as [Hni Hnd].
    assert (Hi0 : out !! i = out0 !! i) by (apply Hag, elem_of_cons; auto).
    cbn [frame_steps] in Hrun. destruct (out !! i) as [g|] eqn:Hi.
    + assert (Hag' : forall j, j ∈ rest -> out !! j = out0 !! j).
      { intros j Hj. apply Hag, elem_of_cons. auto. }
      destruct (IH Hnd _ _ _ _ _ _ _ Hag' Hrun) as (js & Hpre & -> & Hall).
      exists (i :: js). split; [apply prefix_cons; exact Hpre|].
      split.
      * rewrite <- app_assoc. cbn [map app]. unfold line_of at 2.
        rewrite <- Hi0. reflexivity.
      * intros Hr. rewrite (Hall Hr). reflexivity.
    + destruct (Image_putdata (h, w) (buffer_of (entry c w h i))) as [im|e].
      * destruct (Image_save i im) as [file|e].
        -- assert (Hag' : forall j, j ∈ rest -> (<[i:=file]> out) !! j = out0 !! j).
           { intros j Hj. rewrite lookup_insert_ne by (intros ->; contradiction).
             apply Hag, elem_of_cons. auto. }
           destruct (IH Hnd _ _ _ _ _ _ _ Hag' Hrun) as (js & Hpre & -> & Hall).
           exists (i :: js). split; [apply prefix_cons; exact Hpre|].
           split.
           ++ rewrite <- app_assoc. cbn [map app]. unfold line_of at 2.
              rewrite <- Hi0. reflexivity.
           ++ intros Hr. rewrite (Hall Hr). reflexivity.
        -- injection Hrun as _ _ <- <-. exists [i].
           split; [apply prefix_cons, prefix_nil|].
           split; [|discriminate].
           cbn [map]. unfold line_of. rewrite <- Hi0. reflexivity.
      * injection Hrun as _ _ <- <-. exists [].
        split; [apply prefix_nil|]. split; [|discriminate].
        rewrite app_nil_r. reflexivity.
Qed.

Lemma stdout_run_of_steps (out : gmap nat png) dec log r :
  exists tail,
    stdout (run_of_steps (out, dec, log, r)) = log ++ tail
    /\ (tail = [] \/ tail = [MsgIOError] \/ tail = [MsgValueError])
    /\ (r = None -> tail = []).
Proof.
  unfold run_of_steps. destruct r as [e|].
  - destruct e; cbn;
      first [ exists [MsgIOError]; split; [reflexivity|];
              split; [auto | discriminate]
            | exists [MsgValueError]; split; [reflexivity|];
              split; [auto | discriminate]
            | exists []; rewrite app_nil_r; split; [reflexivity|];
              split; [auto | discriminate] ].
  - exists []. cbn. rewrite app_nil_r. auto.
Qed.

End StepsLog.

Section StepsFailure.

Context {image png : Type}.
Variable Image_putdata : Z * Z -> list Z -> result image.
Variable Image_save : nat -> image -> result png.

(** The loop ends with the exception of the first record on which the
    image library fails, among those whose output is missing. *)
Lemma frame_steps_failure c w h i e post :
  forall pre (out : gmap nat png) dec log out' dec' log' r,
    NoDup (pre ++ i :: post) ->
    (forall j, j ∈ pre -> out !! j = None ->
               library_failure Image_putdata Image_save c w h j = None) ->
    out !! i = None ->
    library_failure Image_putdata Image_save c w h i = Some e ->
    frame_steps Image_putdata Image_save c w h (pre ++ i :: post) out dec log
    = (out', dec', log', r) ->
    r = Some e.
Proof.
  induction pre as [|j pre IH];
    intros out dec log out' dec' log' r Hnd Hpre Hi Hfail Hrun.
  - cbn [app frame_steps] in Hrun. rewrite Hi in Hrun.
    unfold library_failure in Hfail.
    destruct (Image_putdata (h, w) (buffer_of (entry c w h i))) as [im|e1].
    + destruct (Image_save i im) as [f|e2]; [discriminate|].
      injection Hfail as <-. injection Hrun as _ _ _ <-. reflexivity.
    + injection Hfail as <-. injection Hrun as _ _ _ <-. reflexivity.
  - cbn [app] in Hnd, Hrun. apply NoDup_cons in Hnd as [Hnj Hnd].
    assert (Hji : j <> i).
    { intros ->. apply Hnj. apply elem_of_app. right. apply elem_of_cons. auto. }
    cbn [frame_steps] in Hrun.
    destruct (out !! j) as [g|] eqn:Hj.
    + eapply IH; [exact Hnd | | exact Hi | exact Hfail | exact Hrun].
      intros k Hk. apply Hpre. apply elem_of_cons. auto.
    + pose proof (Hpre j ltac:(apply elem_of_cons; auto) Hj) as Hok.
      unfold library_failure in Hok.
      destruct (Image_putdata (h, w) (buffer_of (entry c w h j))) as [im|e1];
        [|discriminate].
      destruct (Image_save j im) as [f|e2]; [|discriminate].
      eapply IH; [exact Hnd | | | exact Hfail | exact Hrun].
      * intros k Hk Hnone.
        assert (Hkj : j <> k).
        { intros ->. apply Hnj. apply elem_of_app. auto. }
        rewrite lookup_insert_ne in Hnone by exact Hkj.
        apply Hpre; [apply elem_of_cons; auto | exact Hnone].
      * rewrite lookup_insert_ne by exact Hji. exact Hi.
Qed.

Lemma seq_split_at (n i : nat) :
  (i < n)%nat -> seq 0 n = seq 0 i ++ i :: seq (S i) (n - S i).
Proof.
  intros Hi. replace n with (i + S (n - S i))%nat at 1 by lia.
  rewrite seq_app. reflexivity.
Qed.

(** What a call on readable files returns when the image library
    fails: the exception of the first record it fails on, unless the
    [except] clauses catch it. *)
Lemma read_data_first_failure c a (out : gmap nat png) ff lf q fr sf fo
    (i : nat) e :
  readable c a -> Z.of_nat (length c) < 2 ^ 53 ->
  (i < frame_count c a)%nat -> out !! i = None ->
  (forall j, (j < i)%nat -> out !! j = None ->
             library_failure Image_putdata Image_save c
               (width_of a) (height_of a) j = None) ->
  library_failure Image_putdata Image_save c (width_of a) (height_of a) i
  = Some e ->
  outcome (read_data Image_putdata Image_save (Some c) (Some a) out
             ff lf q fr sf fo)
  = match handler e with
    | Some _ => Ok tt
    | None => Raise e
    end.
Proof.
  intros Hr H53 Hi Hnone Hpre Hfail.
  rewrite read_data_steps by assumption.
  destruct (frame_steps Image_putdata Image_save c (width_of a) (height_of a)
              (seq 0 (frame_count c a)) out []
              [MsgInfo (file_info_of c (width_of a) (height_of a))])
    as [[[out' dec'] log'] r] eqn:Hrun.
  rewrite (seq_split_at _ _ Hi) in Hrun.
  assert (Hre : r = Some e).
  { eapply frame_steps_failure; [| | exact Hnone | exact Hfail | exact Hrun].
    - rewrite <- (seq_split_at _ _ Hi). apply NoDup_seq.
    - intros j Hj. apply Hpre. apply elem_of_seq in Hj. lia. }
  subst r. unfold run_of_steps. destruct (handler e); reflexivity.
Qed.

End StepsFailure.

Lemma prefix_seq_0 js n :
  js `prefix_of` seq 0 n -> exists k, (k <= n)%nat /\ js = seq 0 k.
Proof.
  intros [l Hl]. exists (length js).
  assert (Hlen : (length js <= n)%nat).
  { apply (f_equal length) in Hl. rewrite length_seq, length_app in Hl. lia. }
  split; [exact Hlen|].
  apply (f_equal (take (length js))) in Hl.
  rewrite take_app_length, take_seq in Hl.
  replace (length js `min` n)%nat with (length js) in Hl by lia.
  symmetry. exact Hl.
Qed.

(** ** Files written by the encoders

    [le_bytes], [ts_bytes], [record_bytes], [data_bytes] and [attr_bytes]
    write the format the program reads; what the program reads back from
    them is what was written. *)

Lemma byte_val_byte_of_Z z : byte_val (byte_of_Z z) = z mod 256.
Proof.
  unfold byte_of_Z, byte_val.
  pose proof (Z.mod_pos_bound z 256 ltac:(lia)) as Hm.
  destruct (Byte.of_N (Z.to_N (z mod 256))) as [b|] eqn:Hb.
  - apply Byte.to_of_N in Hb. rewrite Hb. lia.
  - apply Byte.of_N_None_iff in Hb. lia.
Qed.

Lemma length_le_bytes n v : length (le_bytes n v) = n.
Proof.
  revert v. induction n as [|n IH]; intros v; [reflexivity|].
  simpl. f_equal. apply IH.
Qed.

Lemma le_uint_le_bytes n v :
  0 <= v < 256 ^ Z.of_nat n -> le_uint (le_bytes n v) = v.
Proof.
  revert v. induction n as [|n IH]; intros v Hv.
  - simpl in *. lia.
  - cbn [le_bytes le_uint]. rewrite byte_val_byte_of_Z.
    rewrite IH.
    + pose proof (Z.div_mod v 256 ltac:(lia)). lia.
    + rewrite Nat2Z.inj_succ, Z.pow_succ_r in Hv by lia.
      split; [apply Z.div_pos; lia|].
      apply Z.div_lt_upper_bound; lia.
Qed.

Lemma slice_app c1 bs c2 :
  slice (c1 ++ bs ++ c2) (Z.of_nat (length c1)) (Z.of_nat (length bs)) = bs.
Proof.
  unfold slice. rewrite !Nat2Z.id.
  rewrite drop_app_length. apply take_app_length.
Qed.

Lemma slice_app_at c1 bs c2 p n :
  p = Z.of_nat (length c1) -> n = Z.of_nat (length bs) ->
  slice (c1 ++ bs ++ c2) p n = bs.
Proof. intros -> ->. apply slice_app. Qed.

Lemma u32_le_at_le_bytes c1 c2 v p :
  p = Z.of_nat (length c1) -> 0 <= v < 2 ^ 32 ->
  u32_le_at (c1 ++ le_bytes 4 v ++ c2) p = v.
Proof.
  intros Hp Hv.
  rewrite <- le_uint_slice4.
  - rewrite (slice_app_at c1 (le_bytes 4 v) c2 p 4 Hp)
      by (rewrite length_le_bytes; reflexivity).
    apply le_uint_le_bytes. exact Hv.
  - lia.
  - rewrite !length_app, length_le_bytes. lia.
Qed.


(** A timestamp whose three fields fit 32 bits. *)
Lemma length_ts_bytes ts : length (ts_bytes ts) = 12%nat.
Proof.
  destruct ts as [[x y] z]. unfold ts_bytes.
  rewrite !length_app, !length_le_bytes. reflexivity.
Qed.

Lemma ts_at_ts_bytes c1 c2 x y z p :
  p = Z.of_nat (length c1) ->
  0 <= x < 2 ^ 32 -> 0 <= y < 2 ^ 32 -> 0 <= z < 2 ^ 32 ->
  ts_at (c1 ++ ts_bytes (x, y, z) ++ c2) p = (x, y, z).
Proof.
  intros Hp Hx Hy Hz. unfold ts_at, ts_bytes.
  rewrite <- !app_assoc.
  f_equal; [f_equal|].
  - apply u32_le_at_le_bytes; assumption.
  - replace (c1 ++ le_bytes 4 x ++ le_bytes 4 y ++ le_bytes 4 z ++ c2)
      with ((c1 ++ le_bytes 4 x) ++ le_bytes 4 y ++ le_bytes 4 z ++ c2)
      by (rewrite <- app_assoc; reflexivity).
    apply u32_le_at_le_bytes; [|assumption].
    rewrite length_app, length_le_bytes. lia.
  - replace (c1 ++ le_bytes 4 x ++ le_bytes 4 y ++ le_bytes 4 z ++ c2)
      with ((c1 ++ le_bytes 4 x ++ le_bytes 4 y) ++ le_bytes 4 z ++ c2)
      by (rewrite <- !app_assoc; reflexivity).
    apply u32_le_at_le_bytes; [|assumption].
    rewrite !length_app, !length_le_bytes. lia.
Qed.













(** ** The signs of the timing report *)

Lemma fps_of_sign k d :
  0 < k < 2 ^ 53 -> d <> 0 -> - 2 ^ 53 < d < 2 ^ 53 ->
  exists m e,
    fps_of (k + 1) d = S754_finite (d <? 0) m e
    /\ 2 ^ 52 <= Z.pos m < 2 ^ 53.
Proof.
  intros Hk Hd Hdr. unfold fps_of. replace (k + 1 - 1) with k by lia.
  destruct (Z2F_finite d Hd Hdr) as (md & ed & -> & Hmd & Hed).
  destruct (Z2F_finite k ltac:(lia) ltac:(lia)) as (mk & ek & -> & Hmk & Hek).
  replace (k <? 0) with false by (symmetry; apply Z.ltb_ge; lia).
  destruct (SFmul_finite false mk ek false 8589934592000000 (-33))
    as (mx & ex & Hmul & Hmx & Hex); [lia..|].
  destruct (SFdiv_finite (xorb false false) mx ex (d <? 0) md ed)
    as (mf & ef & Hdiv & Hmf); [lia..|].
  exists mf, ef. split; [|exact Hmf].
  unfold float_mul, F1e6. rewrite Hmul, Hdiv. reflexivity.
Qed.

Lemma duration_of_sign dt dt_total :
  - 2 ^ 53 < dt_total + dt < 2 ^ 53 ->
  (dt_total + dt = 0 -> duration_of dt dt_total = S754_zero false)
  /\ (dt_total + dt <> 0 ->
      exists m e,
        duration_of dt dt_total = S754_finite (dt_total + dt <? 0) m e
        /\ 2 ^ 52 <= Z.pos m < 2 ^ 53).
Proof.
  intros Hr. unfold duration_of. split.
  - intros ->. reflexivity.
  - intros Hne.
    destruct (Z2F_finite (dt_total + dt) Hne Hr) as (ms & es & -> & Hms & Hes).
    destruct (SFmul_finite (dt_total + dt <? 0) ms es
                false 4722366482869645 (-72))
      as (mx & ex & Hmul & Hmx & _); [lia..|].
    exists mx, ex. split; [|exact Hmx].
    unfold float_mul, F1e_6. rewrite Hmul.
    destruct (dt_total + dt <? 0); reflexivity.
Qed.

Lemma length_slice c p n :
  0 <= p -> 0 <= n ->
  Z.of_nat (length (slice c p n))
  = Z.min n (Z.max 0 (Z.of_nat (length c) - p)).
Proof.
  intros Hp Hn. unfold slice. rewrite length_take, length_drop. lia.
Qed.

(** ** The names of the image files *)

Lemma list_ascii_of_append s t :
  String.list_ascii_of_string (String.append s t)
  = String.list_ascii_of_string s ++ String.list_ascii_of_string t.
Proof.
  induction s as [|a s IH]; [reflexivity|].
  simpl. rewrite IH. reflexivity.
Qed.

Lemma append_inj_r s1 s2 t :
  String.append s1 t = String.append s2 t -> s1 = s2.
Proof.
  intros Hst. apply (f_equal String.list_ascii_of_string) in Hst.
  rewrite !list_ascii_of_append in Hst.
  apply app_inv_tail in Hst.
  rewrite <- (String.string_of_list_ascii_of_string s1),
          <- (String.string_of_list_ascii_of_string s2), Hst.
  reflexivity.
Qed.

Lemma pad_zeros k d :
  String.append
    (String.string_of_list_ascii (repeat (Ascii.ascii_of_nat 48) k))
    (DecimalString.NilEmpty.string_of_uint d)
  = DecimalString.NilEmpty.string_of_uint (Nat.iter k Decimal.D0 d).
Proof.
  induction k as [|k IH]; [reflexivity|].
  transitivity
    (String.String (Ascii.ascii_of_nat 48)
       (String.append
          (String.string_of_list_ascii (repeat (Ascii.ascii_of_nat 48) k))
          (DecimalString.NilEmpty.string_of_uint d))); [reflexivity|].
  rewrite IH, Nat.iter_succ. reflexivity.
Qed.

Lemma of_uint_zeros k d :
  Nat.of_uint (Nat.iter k Decimal.D0 d) = Nat.of_uint d.
Proof.
  induction k as [|k IH]; [reflexivity|].
  rewrite Nat.iter_succ, <- IH. reflexivity.
Qed.

(** Reading the digits of a formatted index gives the index back. *)
Lemma format_04d_parse i :
  Nat.of_uint
    <$> DecimalString.NilEmpty.uint_of_string (Names.format_04d i)
  = Some i.
Proof.
  unfold Names.format_04d. cbv zeta. rewrite pad_zeros.
  rewrite DecimalString.NilEmpty.usu. cbn.
  rewrite of_uint_zeros, DecimalNat.Unsigned.of_to. reflexivity.
Qed.


(** * The claims *)

(** ** C1: the layout of a file of whole records *)

(** C1, counterexample: a file of exactly one record ([n = 1]) is of the
    form [HEADER_SIZE + stride * n], yet [read_file_info] returns no
    layout for it: the unconditional read of the second timestamp runs
    into the end of the file and [struct.unpack] raises.  Nor does it
    return one for three records that carry the same stamp: the
    division by [dt_total] raises. *)
Lemma layout_not_returned :
  (Z.of_nat (length single_frame_file) = HEADER_SIZE + (2 * 2 + 12) * 1
   /\ read_file_info 2 2 false (OS.mkfd single_frame_file 0)
      = Raise StructError)
  /\ (Z.of_nat (length flat_file) = HEADER_SIZE + (2 * 2 + 12) * 3
      /\ read_file_info 2 2 false (OS.mkfd flat_file 0)
         = Raise ZeroDivisionError).
Proof. repeat split; vm_compute; reflexivity. Qed.

(** C1, as amended: for every valid geometry and every file of
    [HEADER_SIZE + stride * n] bytes with [n >= 2] (below [2^53] bytes)
    whose first and last records carry different [t0], [read_file_info]
    returns [frames = n], [pos_first = HEADER_SIZE] and
    [pos_last = size - stride]. *)
Theorem layout_exact_frames c p w h n reset :
  0 <= p -> 0 < w -> 0 < h -> 2 <= n ->
  Z.of_nat (length c) = HEADER_SIZE + (w * h + 12) * n ->
  Z.of_nat (length c) < 2 ^ 53 ->
  t0 (ts_at c (Z.of_nat (length c) - (w * h + 12))) <> t0 (ts_at c HEADER_SIZE) ->
  exists info fh',
    read_file_info w h reset (OS.mkfd c p) = Ok (info, fh')
    /\ frames info = n
    /\ pos_first info = HEADER_SIZE
    /\ pos_last info = Z.of_nat (length c) - (w * h + 12).
Proof.
  unfold HEADER_SIZE. intros Hp Hw Hh Hn Hlen H53 Hne.
  assert (Hwh : 0 < w * h) by nia.
  rewrite read_file_info_long by nia.
  destruct (decide _) as [Heq|_]; [contradiction|].
  eexists _, _. split; [reflexivity|].
  unfold file_info_of. cbn [frames pos_first pos_last].
  split; [|split; reflexivity].
  replace (Z.of_nat (length c) - (w * h + 12) - 40)
    with ((n - 1) * (w * h + 12)) by lia.
  rewrite Z.div_mul by lia. lia.
Qed.

(** The scenario of the specification: 64x48 pixels, ten records. *)
Lemma layout_exact_frames_witness :
  exists info fh',
    read_file_info 64 48 false (OS.mkfd layout_file 0) = Ok (info, fh')
    /\ frames info = 10
    /\ pos_first info = 40
    /\ pos_last info = 27796.
Proof.
  destruct (layout_exact_frames layout_file 0 64 48 10 false)
    as (info & fh' & Hrun & Hframes & Hfirst & Hlast).
  - lia.
  - lia.
  - lia.
  - lia.
  - vm_compute. reflexivity.
  - vm_compute. reflexivity.
  - vm_compute. discriminate.
  - exists info, fh'. split; [exact Hrun|]. split; [exact Hframes|].
    split; [exact Hfirst|]. rewrite Hlast. vm_compute. reflexivity.
Defined.

(** ** C2: files that are not made of whole records *)

(** C2, counterexample: 77 bytes are not [40 + 16 * n] for any [n], and
    [read_file_info] returns a frame count of 2 for them. *)
Lemma layout_ragged_file_accepted :
  Z.of_nat (length ragged_file) = HEADER_SIZE + (2 * 2 + 12) * 2 + 5
  /\ (forall n, Z.of_nat (length ragged_file) <> HEADER_SIZE + (2 * 2 + 12) * n)
  /\ frames <$> returned (read_file_info 2 2 false (OS.mkfd ragged_file 0))
     = Some 2.
Proof.
  assert (Hlen : Z.of_nat (length ragged_file) = 77) by (vm_compute; reflexivity).
  split; [rewrite Hlen; reflexivity|]. split.
  - intros n. rewrite Hlen. unfold HEADER_SIZE. lia.
  - vm_compute. reflexivity.
Qed.

(** C2, as amended: [read_file_info] checks neither the remainder nor the
    size.  On a file shorter than the header, one record and a second
    timestamp it fails, with [struct.error]; on any longer file (below
    [2^53] bytes, first and last [t0] different) it returns the quotient
    [(size - HEADER_SIZE) / stride] rounded down, whether or not the
    division is exact. *)
Theorem layout_truncates c p w h reset :
  0 <= p -> 0 < w -> 0 < h -> Z.of_nat (length c) < 2 ^ 53 ->
  let size := Z.of_nat (length c) in
  let stride := w * h + 12 in
  (size < HEADER_SIZE + stride + 12 ->
   read_file_info w h reset (OS.mkfd c p) = Raise StructError)
  /\ (HEADER_SIZE + stride + 12 <= size ->
      t0 (ts_at c (size - stride)) <> t0 (ts_at c HEADER_SIZE) ->
      exists info fh',
        read_file_info w h reset (OS.mkfd c p) = Ok (info, fh')
        /\ frames info = (size - HEADER_SIZE) / stride
        /\ pos_last info = size - stride).
Proof.
  unfold HEADER_SIZE. cbv zeta. intros Hp Hw Hh H53.
  assert (Hwh : 0 < w * h) by nia.
  split.
  - intros Hshort. apply read_file_info_short; lia.
  - intros Hlong Hne.
    rewrite read_file_info_long by lia.
    destruct (decide _) as [Heq|_]; [contradiction|].
    eexists _, _. split; [reflexivity|].
    unfold file_info_of. cbn [frames pos_last]. split; [|reflexivity].
    replace (Z.of_nat (length c) - 40)
      with (Z.of_nat (length c) - (w * h + 12) - 40 + 1 * (w * h + 12)) by lia.
    rewrite Z.div_add by lia. reflexivity.
Qed.

Lemma layout_truncates_witness :
  exists info fh',
    read_file_info 2 2 true (OS.mkfd ragged_file 56) = Ok (info, fh')
    /\ frames info = (Z.of_nat (length ragged_file) - HEADER_SIZE) / (2 * 2 + 12)
    /\ pos_last info = Z.of_nat (length ragged_file) - (2 * 2 + 12).
Proof.
  apply (layout_truncates ragged_file 56 2 2 true); try lia.
  - vm_compute. reflexivity.
  - vm_compute. discriminate.
  - vm_compute. discriminate.
Defined.

(** ** C3: the two fields of the attribute file *)

(** C3: on an attribute file holding 64 at offset 19 and 48 at offset 37,
    [read_width_and_height] returns [(48, 64)]: the first component, the
    width, is the field at offset 37 (read through [height_pos]), the
    second, the height, the field at offset 19 (read through
    [width_pos]). *)
Theorem read_width_and_height_swapped :
  u16_le_at attr_64_48 19 = 64
  /\ u16_le_at attr_64_48 37 = 48
  /\ read_width_and_height (Some attr_64_48) 19 37 = Ok (48, 64).
Proof. repeat split; vm_compute; reflexivity. Qed.

(** ** C4: the frame rate when the stamps do not advance *)

(** C4, counterexample: three records with the same stamp; [dt_total] is
    0 and [read_file_info] raises [ZeroDivisionError]. *)
Lemma metrics_flat_file_raises :
  t0 (ts_at flat_file (Z.of_nat (length flat_file) - (2 * 2 + 12)))
  - t0 (ts_at flat_file HEADER_SIZE) = 0
  /\ read_file_info 2 2 false (OS.mkfd flat_file 0) = Raise ZeroDivisionError.
Proof. split; vm_compute; reflexivity. Qed.

(** C4, as amended: the frame rate is never left undefined.  On a file
    that holds the three timestamps sampled (and is below [2^53] bytes),
    [read_file_info] raises [ZeroDivisionError] when [dt_total] is 0,
    whatever the frame count; when [dt_total] is not 0 it returns, [fps]
    is a finite float (neither NaN nor an infinity), and [fps] is zero
    when the frame count is 1. *)
Theorem metrics_degenerate c p w h reset :
  0 <= p -> 0 <= w -> 0 <= h ->
  HEADER_SIZE + 12 + (w * h + 12) <= Z.of_nat (length c) < 2 ^ 53 ->
  let dt_total :=
    t0 (ts_at c (Z.of_nat (length c) - (w * h + 12))) - t0 (ts_at c HEADER_SIZE) in
  (dt_total = 0 ->
   read_file_info w h reset (OS.mkfd c p) = Raise ZeroDivisionError)
  /\ (dt_total <> 0 ->
      exists info fh',
        read_file_info w h reset (OS.mkfd c p) = Ok (info, fh')
        /\ is_finite (fps info) = true
        /\ (frames info = 1 -> is_zero (fps info) = true)).
Proof.
  unfold HEADER_SIZE. cbv zeta. intros Hp Hw Hh Hlen.
  assert (Hwh : 0 <= w * h) by nia.
  rewrite read_file_info_long by lia.
  split.
  - intros Hz. destruct (decide _) as [_|Hne]; [reflexivity | lia].
  - intros Hnz. destruct (decide _) as [Heq|_]; [lia|].
    eexists _, _. split; [reflexivity|].
    unfold file_info_of. cbn [fps frames].
    pose proof (t0_ts_at_range c 40) as Hf.
    pose proof (t0_ts_at_range c (Z.of_nat (length c) - (w * h + 12))) as Hl.
    assert (H53 : 2 ^ 32 < 2 ^ 53) by reflexivity.
    set (k := (Z.of_nat (length c) - (w * h + 12) - 40) / (w * h + 12)).
    assert (Hk : 0 <= k < 2 ^ 53).
    { unfold k. split.
      - apply Z.div_pos; lia.
      - apply Z.div_lt_upper_bound; nia. }
    destruct (fps_of_finite k _ Hk Hnz ltac:(lia)) as [Hfin Hzero].
    split; [exact Hfin|]. intros Hone. apply Hzero. lia.
Qed.

Lemma metrics_degenerate_witness :
  read_file_info 2 2 false (OS.mkfd still_file 0) = Raise ZeroDivisionError.
Proof.
  apply (metrics_degenerate still_file 0 2 2 false); try lia.
  - vm_compute. split; [discriminate | reflexivity].
  - vm_compute. reflexivity.
Defined.

(** ** C5: which errors reach the caller of [read_data] *)

(** C5, counterexample: saving frame 1 fails with [OSError]; the call
    still returns normally, having decoded frames 0 and 1. *)
Lemma sink_failure_swallowed :
  save_failing_at 1 OSError 1%nat ((1, 2), [1; 1]) = Raise OSError
  /\ outcome (read_data putdata_ok (save_failing_at 1 OSError)
                (Some ten_frames_file) (Some attr_1_2) ∅
                0 (-1) 100 None 0 false) = Ok tt
  /\ index_of <$> decoded (read_data putdata_ok (save_failing_at 1 OSError)
                             (Some ten_frames_file) (Some attr_1_2) ∅
                             0 (-1) 100 None 0 false) = [0; 1]%nat.
Proof. repeat split; vm_compute; reflexivity. Qed.

(** C5, as amended: [read_data] never raises [OSError] (that is,
    [IOError]) or [ValueError]: the [except] clauses print and drop
    them.  What reaches the caller is [UnboundLocalError] when the data
    file cannot be opened, [struct.error] when it is too short for the
    three timestamps sampled, [ZeroDivisionError] when [dt_total] is 0,
    and otherwise (data file below [2^53] bytes) only an exception of
    the image library; when the library fails with [OSError] or
    [ValueError] only, the call returns normally.  The first record on
    which the library fails, among those whose output is missing,
    decides: its exception is dropped when it is [OSError] or
    [ValueError], and reaches the caller unchanged when it is of any
    other class.  In every case the files already in the output
    directory are still there afterwards. *)
Theorem errors_reaching_caller {image png : Type}
    (Image_putdata : Z * Z -> list Z -> result image)
    (Image_save : nat -> image -> result png)
    data attr (out : gmap nat png) ff lf q fr sf fo :
  let r := read_data Image_putdata Image_save data attr out ff lf q fr sf fo in
  (forall i f, out !! i = Some f -> out_files r !! i = Some f)
  /\ (forall e, outcome r = Raise e -> e <> OSError /\ e <> ValueError)
  /\ (forall a,
        attr = Some a -> 39 <= Z.of_nat (length a) ->
        let w := u16_le_at a 37 in
        let h := u16_le_at a 19 in
        (data = None -> outcome r = Raise UnboundLocalError)
        /\ (forall c,
              data = Some c ->
              (Z.of_nat (length c) < HEADER_SIZE + 12 + (w * h + 12) ->
               outcome r = Raise StructError)
              /\ (HEADER_SIZE + 12 + (w * h + 12) <= Z.of_nat (length c) < 2 ^ 53 ->
                  (t0 (ts_at c (Z.of_nat (length c) - (w * h + 12)))
                   = t0 (ts_at c HEADER_SIZE) ->
                   outcome r = Raise ZeroDivisionError)
                  /\ (t0 (ts_at c (Z.of_nat (length c) - (w * h + 12)))
                      <> t0 (ts_at c HEADER_SIZE) ->
                      (forall e,
                          outcome r = Raise e ->
                          (exists frame, Image_putdata (h, w) frame = Raise e)
                          \/ (exists i im, Image_save i im = Raise e))
                      /\ ((forall sz frame e,
                              Image_putdata sz frame = Raise e ->
                              e = OSError \/ e = ValueError) ->
                          (forall i im e,
                              Image_save i im = Raise e ->
                              e = OSError \/ e = ValueError) ->
                          outcome r = Ok tt)
                      /\ (forall (i : nat) e,
                            Z.of_nat i < frames (file_info_of c w h) ->
                            out !! i = None ->
                            (forall j : nat,
                                (j < i)%nat -> out !! j = None ->
                                library_failure Image_putdata Image_save
                                  c w h j = None) ->
                            library_failure Image_putdata Image_save c w h i
                            = Some e ->
                            (e = OSError \/ e = ValueError ->
                             outcome r = Ok tt)
                            /\ (e <> OSError -> e <> ValueError ->
                                outcome r = Raise e)))))).
Proof.
  cbv zeta. unfold HEADER_SIZE. split; [|split].
  - intros i f Hi. apply read_data_keeps. exact Hi.
  - intros e He. apply read_data_raises in He.
    split; intros ->; discriminate.
  - intros a -> Ha.
    assert (Hwh : 0 <= u16_le_at a 37 * u16_le_at a 19).
    { pose proof (u16_le_at_range a 37). pose proof (u16_le_at_range a 19). nia. }
    split.
    { intros ->. unfold read_data.
      rewrite read_width_and_height_long by assumption. reflexivity. }
    intros c ->. split.
    + intros Hshort. unfold read_data.
      rewrite read_width_and_height_long by assumption. cbn [OS.open].
      rewrite read_data_body_short; [reflexivity | assumption | lia].
    + intros Hlen. split.
      * intros Heq. unfold read_data.
        rewrite read_width_and_height_long by assumption. cbn [OS.open].
        rewrite read_data_body_zero; [reflexivity | assumption | lia | assumption].
      * intros Hne.
        destruct (read_data_bounded Image_putdata Image_save c a out
                    ff lf q fr sf fo Ha ltac:(lia) Hne) as (_ & Hexn & Hok).
        split; [exact Hexn|]. split.
        -- intros Hcls1 Hcls2. apply Hok.
           ++ intros sz frame e Hput.
              destruct (Hcls1 _ _ _ Hput) as [-> | ->]; discriminate.
           ++ intros i im e Hsave.
              destruct (Hcls2 _ _ _ Hsave) as [-> | ->]; discriminate.
        -- intros i e Hi Hnone Hpre Hfail.
           assert (Hr : readable c a).
           { unfold readable, width_of, height_of.
             split; [exact Ha|]. split; [lia | exact Hne]. }
           assert (Hout : outcome (read_data Image_putdata Image_save (Some c)
                                     (Some a) out ff lf q fr sf fo)
                          = match handler e with
                            | Some _ => Ok tt
                            | None => Raise e
                            end).
           { apply (read_data_first_failure Image_putdata Image_save c a out
                      ff lf q fr sf fo i e Hr ltac:(lia)).
             - unfold frame_count, width_of, height_of. lia.
             - exact Hnone.
             - exact Hpre.
             - exact Hfail. }
           rewrite Hout. split.
           ++ intros [-> | ->]; reflexivity.
           ++ intros H1 H2. destruct e; try reflexivity; contradiction.
Qed.

Lemma errors_reaching_caller_witness :
  out_files (read_data putdata_ok (save_failing_at 1 OSError)
               (Some ten_frames_file) (Some attr_1_2) frame_3_present
               0 (-1) 100 None 0 false)
    !! 3%nat = Some ((1, 2), [3; 3]).
Proof.
  apply (errors_reaching_caller putdata_ok (save_failing_at 1 OSError)
           (Some ten_frames_file) (Some attr_1_2) frame_3_present
           0 (-1) 100 None 0 false).
  vm_compute. reflexivity.
Defined.

(** ** C6: the timing report *)

(** C6, counterexample: with the stamps 1000, 1100 and 5000 and 41
    frames the call returns [dt = 100], [dt_total = 4000], [fps =
    10000.0] and [duration = 4100 * 1e-6], which in binary64 is
    [0.0040999999999999995] and not [0.0041]. *)
Lemma metrics_duration_not_0_0041 :
  (fun i => (t0 (ts_first i), t0 (ts_second i), t0 (ts_last i), frames i,
             dt i, dt_total i, fps i, duration i))
    <$> returned (read_file_info 1 1 false (OS.mkfd metrics_file 0))
  = Some (1000, 1100, 5000, 41, 100, 4000,
          literal 10000 0, literal 40999999999999995 (-19))
  /\ literal 40999999999999995 (-19) <> literal 41 (-4).
Proof. split; vm_compute; [reflexivity | discriminate]. Qed.

(** C6, as amended: on a file that holds the three timestamps sampled
    (below [2^53] bytes) with [dt_total] not 0, [read_file_info] returns
    [dt = ts_second[0] - ts_first[0]], [dt_total = ts_last[0] -
    ts_first[0]], [fps = (frames - 1) * 1e6 / dt_total] and [duration =
    (dt_total + dt) * 1e-6], the last two evaluated in binary64 with the
    [int] operands converted first. *)
Theorem metrics_formulas c p w h reset :
  0 <= p -> 0 <= w -> 0 <= h ->
  HEADER_SIZE + 12 + (w * h + 12) <= Z.of_nat (length c) < 2 ^ 53 ->
  t0 (ts_at c (Z.of_nat (length c) - (w * h + 12))) <> t0 (ts_at c HEADER_SIZE) ->
  exists info fh' x,
    read_file_info w h reset (OS.mkfd c p) = Ok (info, fh')
    /\ ts_first info = ts_at c HEADER_SIZE
    /\ ts_second info = ts_at c (HEADER_SIZE + 12 + w * h)
    /\ ts_last info = ts_at c (Z.of_nat (length c) - (w * h + 12))
    /\ dt info = t0 (ts_second info) - t0 (ts_first info)
    /\ dt_total info = t0 (ts_last info) - t0 (ts_first info)
    /\ int_mul_float (frames info - 1) F1e6 = Ok x
    /\ float_div_int x (dt_total info) = Ok (fps info)
    /\ int_mul_float (dt_total info + dt info) F1e_6 = Ok (duration info).
Proof.
  unfold HEADER_SIZE. intros Hp Hw Hh Hlen Hne.
  assert (Hwh : 0 <= w * h) by nia.
  rewrite read_file_info_long by lia.
  destruct (decide _) as [Heq|_]; [contradiction|].
  pose proof (t0_ts_at_range c 40) as Hf.
  pose proof (t0_ts_at_range c (52 + w * h)) as Hs.
  pose proof (t0_ts_at_range c (Z.of_nat (length c) - (w * h + 12))) as Hl.
  assert (H53 : 2 ^ 32 < 2 ^ 53) by reflexivity.
  set (k := (Z.of_nat (length c) - (w * h + 12) - 40) / (w * h + 12)).
  assert (Hk : 0 <= k < 2 ^ 53).
  { unfold k. split.
    - apply Z.div_pos; lia.
    - apply Z.div_lt_upper_bound; nia. }
  exists (file_info_of c w h). eexists.
  exists (float_mul (Z2F k) F1e6).
  unfold file_info_of.
  cbn [ts_first ts_second ts_last dt dt_total frames fps duration].
  fold k. replace (40 + 12 + w * h) with (52 + w * h) by lia.
  repeat (split; [reflexivity|]).
  replace (k + 1 - 1) with k by lia.
  unfold int_mul_float, float_div_int, float_truediv.
  rewrite !float_of_int_ok by lia.
  split; [reflexivity|]. split; [|reflexivity].
  destruct (Z2F_finite (t0 (ts_at c (Z.of_nat (length c) - (w * h + 12)))
                        - t0 (ts_at c 40))) as (m & e & Hz & _); [lia..|].
  unfold fps_of. replace (k + 1 - 1) with k by lia.
  rewrite Hz. reflexivity.
Qed.

Lemma metrics_formulas_witness :
  exists info fh' x,
    read_file_info 1 1 false (OS.mkfd metrics_file 0) = Ok (info, fh')
    /\ ts_first info = ts_at metrics_file HEADER_SIZE
    /\ ts_second info = ts_at metrics_file (HEADER_SIZE + 12 + 1 * 1)
    /\ ts_last info
       = ts_at metrics_file (Z.of_nat (length metrics_file) - (1 * 1 + 12))
    /\ dt info = t0 (ts_second info) - t0 (ts_first info)
    /\ dt_total info = t0 (ts_last info) - t0 (ts_first info)
    /\ int_mul_float (frames info - 1) F1e6 = Ok x
    /\ float_div_int x (dt_total info) = Ok (fps info)
    /\ int_mul_float (dt_total info + dt info) F1e_6 = Ok (duration info).
Proof.
  apply (metrics_formulas metrics_file 0 1 1 false); try lia.
  - vm_compute. split; [discriminate | reflexivity].
  - vm_compute. discriminate.
Defined.

(** ** C7: one timestamp *)

(** C7: at every position with twelve bytes available, [read_timestamp]
    returns the three little-endian unsigned 32-bit fields stored there,
    and leaves the position twelve bytes further when [reset_location]
    is false, unchanged when it is true. *)
Theorem read_timestamp_position c p reset_location :
  0 <= p -> p + 12 <= Z.of_nat (length c) ->
  read_timestamp reset_location (OS.mkfd c p)
  = Ok ((u32_le_at c p, u32_le_at c (p + 4), u32_le_at c (p + 8)),
        OS.mkfd c (if reset_location then p else p + 12)).
Proof. intros Hp Hlen. apply read_timestamp_ok; assumption. Qed.

Lemma read_timestamp_position_witness :
  read_timestamp false (OS.mkfd short_stream 0)
  = Ok ((u32_le_at short_stream 0, u32_le_at short_stream (0 + 4),
         u32_le_at short_stream (0 + 8)),
        OS.mkfd short_stream (0 + 12))
  /\ read_timestamp true (OS.mkfd short_stream 3)
     = Ok ((u32_le_at short_stream 3, u32_le_at short_stream (3 + 4),
            u32_le_at short_stream (3 + 8)),
           OS.mkfd short_stream 3).
Proof.
  split.
  - apply (read_timestamp_position short_stream 0 false); [lia|].
    vm_compute. discriminate.
  - apply (read_timestamp_position short_stream 3 true); [lia|].
    vm_compute. discriminate.
Defined.


(** ** C8: reads that run into the end of the file *)




(** ** C9: frames whose output is already there *)



(** ** C10: the parameters that are not used *)

(** C10: [first_frame], [last_frame], [quality], [framerate],
    [skipframes] and [force_overwrite] change nothing: two calls on the
    same files and the same output directory end the same way, decode
    the same frames, leave the same files and print the same lines. *)
Theorem unused_parameters {image png : Type}
    (Image_putdata : Z * Z -> list Z -> result image)
    (Image_save : nat -> image -> result png)
    data attr (out : gmap nat png)
    first_frame last_frame quality framerate skipframes force_overwrite
    first_frame' last_frame' quality' framerate' skipframes' force_overwrite' :
  read_data Image_putdata Image_save data attr out
    first_frame last_frame quality framerate skipframes force_overwrite
  = read_data Image_putdata Image_save data attr out
      first_frame' last_frame' quality' framerate' skipframes' force_overwrite'.
Proof.
  unfold read_data.
  destruct (read_width_and_height attr 19 37) as [[w h]|e]; [|reflexivity].
  destruct (OS.open data) as [fh|e]; [|reflexivity].
  assert (Hbody : read_data_body Image_putdata Image_save fh w h out framerate
                  = read_data_body Image_putdata Image_save fh w h out framerate').
  { unfold read_data_body.
    destruct (read_file_info w h false fh) as [[info fh1]|e]; reflexivity. }
  rewrite Hbody. reflexivity.
Qed.


(** * Further properties of the program *)

(** ** X1, X2: [read_width_and_height] at any pair of offsets *)

(** X1: for every attribute file and every pair of offsets that lie
    inside it, [read_width_and_height] returns as width the unsigned
    16-bit little-endian field stored at [height_pos] and as height the
    one stored at [width_pos]; both are between 0 and 65535. *)
Theorem read_width_and_height_fields a width_pos height_pos :
  0 <= width_pos -> width_pos + 2 <= Z.of_nat (length a) ->
  0 <= height_pos -> height_pos + 2 <= Z.of_nat (length a) ->
  read_width_and_height (Some a) width_pos height_pos
  = Ok (u16_le_at a height_pos, u16_le_at a width_pos)
  /\ 0 <= u16_le_at a height_pos < 2 ^ 16
  /\ 0 <= u16_le_at a width_pos < 2 ^ 16.
Proof.
  intros Hw Hwl Hh Hhl. split.
  - unfold read_width_and_height, read_width_and_height_body.
    cbn [OS.open].
    rewrite read_u16_ok by assumption.
    rewrite read_u16_ok by assumption.
    reflexivity.
  - split; apply u16_le_at_range.
Qed.

Lemma read_width_and_height_fields_witness :
  read_width_and_height (Some attr_64_48) 37 19
  = Ok (u16_le_at attr_64_48 19, u16_le_at attr_64_48 37)
  /\ 0 <= u16_le_at attr_64_48 19 < 2 ^ 16
  /\ 0 <= u16_le_at attr_64_48 37 < 2 ^ 16.
Proof.
  apply (read_width_and_height_fields attr_64_48 37 19);
    vm_compute; discriminate.
Defined.

(** X2: the ways [read_width_and_height] fails, in the order the code
    meets them.  A missing file gives [UnboundLocalError] (from the
    [finally] clause); on a file that exists, a negative [width_pos]
    (within 64 bits) gives [OSError], fewer than two bytes at
    [width_pos] (an offset of at most [2^31 - 1], which every file
    system accepts) give [struct.error], and then the same two for
    [height_pos]. *)
Theorem read_width_and_height_failures a width_pos height_pos :
  read_width_and_height None width_pos height_pos = Raise UnboundLocalError
  /\ (- 2 ^ 63 <= width_pos < 0 ->
      read_width_and_height (Some a) width_pos height_pos = Raise OSError)
  /\ (0 <= width_pos <= OS.OFFSET_MAX ->
      Z.of_nat (length a) < width_pos + 2 ->
      read_width_and_height (Some a) width_pos height_pos = Raise StructError)
  /\ (0 <= width_pos -> width_pos + 2 <= Z.of_nat (length a) ->
      (- 2 ^ 63 <= height_pos < 0 ->
       read_width_and_height (Some a) width_pos height_pos = Raise OSError)
      /\ (0 <= height_pos <= OS.OFFSET_MAX ->
          Z.of_nat (length a) < height_pos + 2 ->
          read_width_and_height (Some a) width_pos height_pos
          = Raise StructError)).
Proof.
  split; [reflexivity|].
  unfold read_width_and_height, read_width_and_height_body. cbn [OS.open].
  split; [|split].
  - intros Hneg. unfold OS.bind at 1. unfold OS.lseek. cbn.
    destruct (Z.ltb_spec (0 + width_pos) 0); [reflexivity | lia].
  - intros Hw Hshort. rewrite read_u16_short by lia. reflexivity.
  - intros Hw Hlong. rewrite read_u16_ok by assumption. split.
    + intros Hneg. unfold OS.bind at 1. unfold OS.lseek. cbn.
      destruct (Z.ltb_spec (0 + height_pos) 0); [reflexivity | lia].
    + intros Hh Hshort. rewrite read_u16_short by lia. reflexivity.
Qed.

Lemma read_width_and_height_failures_witness :
  read_width_and_height (Some attr_64_48) (-1) 37 = Raise OSError
  /\ read_width_and_height (Some attr_64_48) 19 38 = Raise StructError.
Proof.
  split.
  - apply (proj1 (proj2 (read_width_and_height_failures attr_64_48 (-1) 37))).
    lia.
  - apply (proj2 (proj2 (proj2 (read_width_and_height_failures
                                  attr_64_48 19 38)))).
    + lia.
    + vm_compute. discriminate.
    + vm_compute. split; discriminate.
    + vm_compute. reflexivity.
Defined.

(** ** X3: [read_timestamp] reads back what was written *)

(** X3: a timestamp of three fields below [2^32], written as twelve
    little-endian bytes anywhere in a file, is what [read_timestamp]
    returns at that position, whatever comes before and after it; the
    position ends twelve bytes further, or where it was with
    [reset_location]. *)
Theorem read_timestamp_round_trip before after x y z reset_location :
  field_ok x -> field_ok y -> field_ok z ->
  read_timestamp reset_location
    (OS.mkfd (before ++ ts_bytes (x, y, z) ++ after)
       (Z.of_nat (length before)))
  = Ok ((x, y, z),
        OS.mkfd (before ++ ts_bytes (x, y, z) ++ after)
          (if reset_location then Z.of_nat (length before)
           else Z.of_nat (length before) + 12)).
Proof.
  intros Hx Hy Hz.
  rewrite read_timestamp_ok.
  - rewrite ts_at_ts_bytes by (reflexivity || assumption). reflexivity.
  - lia.
  - rewrite !length_app, length_ts_bytes. lia.
Qed.

Lemma read_timestamp_round_trip_witness :
  read_timestamp false
    (OS.mkfd ([x07; x07] ++ ts_bytes (4294967295, 0, 305419896) ++ [x01])
       (Z.of_nat (length [x07; x07])))
  = Ok ((4294967295, 0, 305419896),
        OS.mkfd ([x07; x07] ++ ts_bytes (4294967295, 0, 305419896) ++ [x01])
          (Z.of_nat (length [x07; x07]) + 12)).
Proof.
  apply (read_timestamp_round_trip [x07; x07] [x01]
           4294967295 0 305419896 false);
    unfold field_ok; lia.
Defined.

(** ** X4: what [read_frame] returns *)

(** X4: for a [width * height] of at most [0x7ffff000], the most one
    call of [os.read] transfers, [read_frame] returns at any position,
    without failing, as many pixels as are left in the file up to
    [width * height], each between 0 and 255, and moves the position by
    that number of bytes, or leaves it where it was with
    [reset_location].  A negative [width * height] makes [os.read] fail
    with [OSError]; one outside 64 bits, or above the largest [bytes]
    object ([2^63 - 34] bytes), makes it fail with [OverflowError]. *)
Theorem read_frame_pixels c p w h reset_location :
  0 <= p ->
  (0 <= w * h <= OS.RW_COUNT_MAX ->
   exists data,
     read_frame w h reset_location (OS.mkfd c p)
     = Ok (data,
           OS.mkfd c (if reset_location then p
                      else p + Z.of_nat (length data)))
     /\ Z.of_nat (length data)
        = Z.min (w * h) (Z.max 0 (Z.of_nat (length c) - p))
     /\ Forall (fun v => 0 <= v < 256) data)
  /\ (- 2 ^ 63 <= w * h < 0 ->
      read_frame w h reset_location (OS.mkfd c p) = Raise OSError)
  /\ (w * h < - 2 ^ 63 \/ 2 ^ 63 - 34 < w * h ->
      read_frame w h reset_location (OS.mkfd c p) = Raise OverflowError).
Proof.
  intros Hp. split; [|split].
  - intros Hwh. exists (pixels_at c p (w * h)).
    split; [|split].
    + rewrite read_frame_any by (try apply rw_count_fits; lia).
      unfold pixels_at. rewrite length_map. reflexivity.
    + unfold pixels_at. rewrite length_map. apply length_slice; lia.
    + unfold pixels_at.
      induction (slice c p (w * h)) as [|b bs IH]; cbn [map];
        constructor; [apply byte_val_range | exact IH].
  - intros Hneg. unfold read_frame.
    rewrite (bind_ok _ _ _ _ _ (lseek_tell c p Hp)).
    apply bind_raise. apply read_negative. exact Hneg.
  - intros Hbig. unfold read_frame.
    rewrite (bind_ok _ _ _ _ _ (lseek_tell c p Hp)).
    apply bind_raise. apply read_overflow. exact Hbig.
Qed.

Lemma read_frame_pixels_witness :
  (exists data,
      read_frame 2 2 true (OS.mkfd short_stream 12)
      = Ok (data, OS.mkfd short_stream 12)
      /\ Z.of_nat (length data)
         = Z.min (2 * 2) (Z.max 0 (Z.of_nat (length short_stream) - 12))
      /\ Forall (fun v => 0 <= v < 256) data)
  /\ read_frame (-1) 2 true (OS.mkfd short_stream 12) = Raise OSError
  /\ read_frame (2 ^ 32) (2 ^ 31) true (OS.mkfd short_stream 12)
     = Raise OverflowError.
Proof.
  split; [|split].
  - apply (read_frame_pixels short_stream 12 2 2 true);
      [lia | vm_compute; split; discriminate].
  - apply (proj1 (proj2 (read_frame_pixels short_stream 12 (-1) 2 true
                           ltac:(lia)))).
    lia.
  - apply (proj2 (proj2 (read_frame_pixels short_stream 12 (2 ^ 32) (2 ^ 31)
                           true ltac:(lia)))).
    right. vm_compute. reflexivity.
Defined.

(** ** X5, X6, X7, X8: [read_file_info] *)

(** X5: where [read_file_info] leaves the file.  On a file that holds
    the three timestamps sampled (below [2^53] bytes, [dt_total] not 0)
    the call started at any position returns with the same file at the
    starting position when [reset_location] is true, and otherwise
    twelve bytes after [pos_last], at the pixels of the last record. *)
Theorem read_file_info_final_position c p w h reset_location :
  0 <= p -> 0 <= w * h ->
  52 + (w * h + 12) <= Z.of_nat (length c) < 2 ^ 53 ->
  t0 (ts_at c (Z.of_nat (length c) - (w * h + 12))) <> t0 (ts_at c 40) ->
  exists info,
    read_file_info w h reset_location (OS.mkfd c p)
    = Ok (info,
          OS.mkfd c (if reset_location then p else pos_last info + 12))
    /\ pos_last info + 12 = Z.of_nat (length c) - w * h.
Proof.
  intros Hp Hwh Hlen Hne.
  rewrite read_file_info_long by assumption.
  destruct (decide _) as [Heq|_]; [contradiction|].
  exists (file_info_of c w h). split; [reflexivity|].
  unfold file_info_of. cbn [pos_last]. lia.
Qed.

Lemma read_file_info_final_position_witness :
  exists info,
    read_file_info 1 1 false (OS.mkfd metrics_file 7)
    = Ok (info, OS.mkfd metrics_file (pos_last info + 12))
    /\ pos_last info + 12 = Z.of_nat (length metrics_file) - 1 * 1.
Proof.
  apply (read_file_info_final_position metrics_file 7 1 1 false).
  - lia.
  - lia.
  - vm_compute. split; [discriminate | reflexivity].
  - vm_compute. discriminate.
Defined.

(** X6: [read_file_info] looks at the size of the file and at three
    timestamps only.  Two files of the same size (below [2^53] bytes)
    that agree on the timestamps at offsets 40, [52 + width * height]
    and [size - (width * height + 12)] give the same outcome: the same
    record, or no record for both, whatever the other bytes are, the
    starting positions and [reset_location]. *)
Theorem read_file_info_samples c c' p p' w h reset_location reset_location' :
  0 <= p -> 0 <= p' -> 0 <= w * h ->
  length c = length c' -> Z.of_nat (length c) < 2 ^ 53 ->
  ts_at c 40 = ts_at c' 40 ->
  ts_at c (52 + w * h) = ts_at c' (52 + w * h) ->
  ts_at c (Z.of_nat (length c) - (w * h + 12))
  = ts_at c' (Z.of_nat (length c) - (w * h + 12)) ->
  returned (read_file_info w h reset_location (OS.mkfd c p))
  = returned (read_file_info w h reset_location' (OS.mkfd c' p')).
Proof.
  intros Hp Hp' Hwh Hlen H53 H1 H2 H3.
  destruct (Z.lt_ge_cases (Z.of_nat (length c)) (52 + (w * h + 12))) as [Hs|Hl].
  - rewrite !read_file_info_short by (rewrite <- ?Hlen; assumption).
    reflexivity.
  - rewrite !read_file_info_long by (rewrite <- ?Hlen; auto with zarith).
    assert (Hinfo : file_info_of c w h = file_info_of c' w h).
    { unfold file_info_of. rewrite <- Hlen, <- H1, <- H2, <- H3. reflexivity. }
    rewrite <- Hlen, <- H1, <- H3, <- Hinfo.
    destruct (decide _); reflexivity.
Qed.

Lemma read_file_info_samples_witness :
  returned (read_file_info 2 1 false (OS.mkfd ten_frames_file 0))
  = returned (read_file_info 2 1 true (OS.mkfd repainted_file 99)).
Proof.
  apply (read_file_info_samples ten_frames_file repainted_file 0 99 2 1
           false true); try lia; vm_compute; reflexivity.
Defined.

(** X7: [read_file_info] does not check the order of the timestamps.
    With at least two records in the file (below [2^53] bytes) and
    [dt_total] not 0, [fps] is a non-zero finite float that is negative
    exactly when the last timestamp is before the first; [duration] is
    zero when [dt_total + dt] is 0 and otherwise a non-zero finite
    float, negative exactly when [dt_total + dt] is. *)
Theorem timing_signs c p w h reset_location :
  0 <= p -> 0 <= w * h ->
  40 + 2 * (w * h + 12) <= Z.of_nat (length c) < 2 ^ 53 ->
  t0 (ts_at c (Z.of_nat (length c) - (w * h + 12))) <> t0 (ts_at c 40) ->
  exists info fh',
    read_file_info w h reset_location (OS.mkfd c p) = Ok (info, fh')
    /\ (exists m e,
          fps info = S754_finite (dt_total info <? 0) m e
          /\ 2 ^ 52 <= Z.pos m < 2 ^ 53)
    /\ (dt_total info + dt info = 0 -> duration info = S754_zero false)
    /\ (dt_total info + dt info <> 0 ->
        exists m e,
          duration info
          = S754_finite (dt_total info + dt info <? 0) m e
          /\ 2 ^ 52 <= Z.pos m < 2 ^ 53).
Proof.
  intros Hp Hwh Hlen Hne.
  rewrite read_file_info_long by (auto with zarith; lia).
  destruct (decide _) as [Heq|_]; [contradiction|].
  eexists _, _. split; [reflexivity|].
  unfold file_info_of. cbn [fps duration dt dt_total].
  pose proof (t0_ts_at_range c 40) as Hf.
  pose proof (t0_ts_at_range c (52 + w * h)) as Hs.
  pose proof (t0_ts_at_range c (Z.of_nat (length c) - (w * h + 12))) as Hl.
  assert (H53 : 2 ^ 32 < 2 ^ 52) by reflexivity.
  assert (H53' : 2 ^ 52 < 2 ^ 53) by reflexivity.
  split.
  - remember (Z.of_nat (length c)) as L eqn:EL.
    assert (Hk : 0 < (L - (w * h + 12) - 40) / (w * h + 12) < 2 ^ 53).
    { split.
      - apply Z.div_str_pos. lia.
      - apply Z.div_lt_upper_bound; nia. }
    apply fps_of_sign; [exact Hk | lia | lia].
  - apply duration_of_sign. lia.
Qed.

Lemma timing_signs_witness :
  exists info fh',
    read_file_info 2 1 false (OS.mkfd ten_frames_file 0) = Ok (info, fh')
    /\ (exists m e,
          fps info = S754_finite (dt_total info <? 0) m e
          /\ 2 ^ 52 <= Z.pos m < 2 ^ 53)
    /\ (dt_total info + dt info = 0 -> duration info = S754_zero false)
    /\ (dt_total info + dt info <> 0 ->
        exists m e,
          duration info
          = S754_finite (dt_total info + dt info <? 0) m e
          /\ 2 ^ 52 <= Z.pos m < 2 ^ 53).
Proof.
  apply (timing_signs ten_frames_file 0 2 1 false).
  - lia.
  - lia.
  - vm_compute. split; [discriminate | reflexivity].
  - vm_compute. discriminate.
Defined.

(** X8: where the last timestamp is sampled.  On a file that holds the
    three timestamps sampled (below [2^53] bytes, [dt_total] not 0),
    [pos_last] lies after the offset of the last record counted,
    [pos_first + (frames - 1) * stride], by the remainder of
    [size - 40] by the stride: [ts_last] is the timestamp of the last
    record exactly when the records fill the file, and otherwise twelve
    bytes that start inside that record. *)
Theorem pos_last_offset c p w h reset_location :
  0 <= p -> 0 <= w * h ->
  52 + (w * h + 12) <= Z.of_nat (length c) < 2 ^ 53 ->
  t0 (ts_at c (Z.of_nat (length c) - (w * h + 12))) <> t0 (ts_at c 40) ->
  exists info fh',
    read_file_info w h reset_location (OS.mkfd c p) = Ok (info, fh')
    /\ pos_last info
       = pos_first info + (frames info - 1) * (w * h + 12)
         + (Z.of_nat (length c) - 40) mod (w * h + 12)
    /\ ts_last info = ts_at c (pos_last info)
    /\ (pos_last info = pos_first info + (frames info - 1) * (w * h + 12)
        <-> (Z.of_nat (length c) - 40) mod (w * h + 12) = 0).
Proof.
  intros Hp Hwh Hlen Hne.
  rewrite read_file_info_long by assumption.
  destruct (decide _) as [Heq|_]; [contradiction|].
  eexists _, _. split; [reflexivity|].
  unfold file_info_of. cbn [pos_last pos_first frames ts_last].
  remember (Z.of_nat (length c)) as L eqn:EL. clear EL.
  remember (w * h + 12) as stride eqn:Es.
  assert (Hs : 0 < stride) by lia.
  assert (Hmod : (L - 40) mod stride = (L - stride - 40) mod stride).
  { replace (L - 40) with (L - stride - 40 + 1 * stride) by ring.
    apply Z.mod_add. lia. }
  pose proof (Z.div_mod (L - stride - 40) stride ltac:(lia)) as Hdm.
  rewrite Hmod.
  remember ((L - stride - 40) / stride) as k eqn:Ek. clear Ek.
  remember ((L - stride - 40) mod stride) as r eqn:Er. clear Er.
  split; [|split].
  - replace (k + 1 - 1) with k by lia. lia.
  - reflexivity.
  - replace (k + 1 - 1) with k by lia. lia.
Qed.

Lemma pos_last_offset_witness :
  exists info fh',
    read_file_info 2 2 false (OS.mkfd ragged_file 0) = Ok (info, fh')
    /\ pos_last info
       = pos_first info + (frames info - 1) * (2 * 2 + 12)
         + (Z.of_nat (length ragged_file) - 40) mod (2 * 2 + 12)
    /\ ts_last info = ts_at ragged_file (pos_last info)
    /\ (pos_last info = pos_first info + (frames info - 1) * (2 * 2 + 12)
        <-> (Z.of_nat (length ragged_file) - 40) mod (2 * 2 + 12) = 0).
Proof.
  apply (pos_last_offset ragged_file 0 2 2 false).
  - lia.
  - lia.
  - vm_compute. split; [discriminate | reflexivity].
  - vm_compute. discriminate.
Defined.

(** ** X9: the order of the frames decoded *)



(** ** X10: the output directory after a complete run *)



(** ** X11: a second run *)

(** X11: with an image library that does not fail (data file below
    [2^53] bytes), a second call of [read_data] on the directory the
    first call left decodes no frame and leaves the directory as it
    is. *)
Theorem second_run_is_noop {image png : Type}
    (Image_putdata : Z * Z -> list Z -> result image)
    (Image_save : nat -> image -> result png)
    data attr (out : gmap nat png) ff lf q fr sf fo ff' lf' q' fr' sf' fo' :
  (forall sz frame, exists im, Image_putdata sz frame = Ok im) ->
  (forall i im, exists f, Image_save i im = Ok f) ->
  (forall c, data = Some c -> Z.of_nat (length c) < 2 ^ 53) ->
  let r1 := read_data Image_putdata Image_save data attr out
              ff lf q fr sf fo in
  let r2 := read_data Image_putdata Image_save data attr (out_files r1)
              ff' lf' q' fr' sf' fo' in
  decoded r2 = [] /\ out_files r2 = out_files r1.
Proof.
  intros Hput Hsave Hsize. cbv zeta.
  destruct (readable_or_not data attr) as [(c & a & -> & -> & Hr) | Hn].
  - specialize (Hsize c eq_refl).
    destruct (read_data_directory Image_putdata Image_save c a out
                ff lf q fr sf fo Hput Hsave Hr Hsize) as (_ & _ & Hout1).
    cbv zeta in Hout1.
    remember (out_files (read_data Image_putdata Image_save (Some c)
                           (Some a) out ff lf q fr sf fo)) as out1 eqn:E.
    clear E.
    destruct (read_data_directory Image_putdata Image_save c a out1
                ff' lf' q' fr' sf' fo' Hput Hsave Hr Hsize)
      as (_ & Hdec2 & Hout2).
    cbv zeta in Hdec2, Hout2.
    assert (Hfull : forall j, (j < frame_count c a)%nat -> out1 !! j <> None).
    { intros j Hj. rewrite Hout1. destruct (out !! j); [discriminate|].
      destruct (decide (j < frame_count c a)%nat); [|contradiction].
      destruct (saved_total Image_putdata Image_save c (width_of a)
                  (height_of a) j Hput Hsave) as [f ->]. discriminate. }
    split.
    + rewrite Hdec2, filter_none; [reflexivity|].
      intros j Hj. apply elem_of_seq in Hj. apply Hfull. lia.
    + apply map_eq. intros j. rewrite Hout2.
      destruct (out1 !! j) as [f|] eqn:Hj; [reflexivity|].
      destruct (decide (j < frame_count c a)%nat) as [Hlt|]; [|reflexivity].
      exfalso. exact (Hfull j Hlt Hj).
  - destruct (read_data_unreadable Image_putdata Image_save data attr out
                ff lf q fr sf fo Hsize Hn) as (-> & _ & _).
    destruct (read_data_unreadable Image_putdata Image_save data attr out
                ff' lf' q' fr' sf' fo' Hsize Hn) as (-> & -> & _).
    split; reflexivity.
Qed.

Lemma second_run_is_noop_witness :
  let r1 := read_data putdata_ok save_ok (Some ten_frames_file) (Some attr_1_2)
              frame_3_present 0 (-1) 100 None 0 false in
  let r2 := read_data putdata_ok save_ok (Some ten_frames_file) (Some attr_1_2)
              (out_files r1) 0 (-1) 100 None 0 true in
  decoded r2 = [] /\ out_files r2 = out_files r1.
Proof.
  apply (second_run_is_noop putdata_ok save_ok (Some ten_frames_file)
           (Some attr_1_2) frame_3_present).
  - intros sz frame. exists (sz, frame). reflexivity.
  - intros i im. exists im. reflexivity.
  - intros c [= <-]. vm_compute. reflexivity.
Defined.

(** ** X12: resuming an interrupted run *)



(** ** X13: a missing or short attribute file *)

(** X13: [read_data] reads the attribute file first.  When that file is
    missing the call raises [UnboundLocalError], and when it is shorter
    than 39 bytes the call raises [struct.error]; in both cases nothing
    is printed, no frame is decoded and the output directory is left as
    it is, whatever the data file holds. *)
Theorem attribute_file_read_first {image png : Type}
    (Image_putdata : Z * Z -> list Z -> result image)
    (Image_save : nat -> image -> result png)
    data attr (out : gmap nat png) ff lf q fr sf fo :
  (forall a, attr = Some a -> Z.of_nat (length a) < 39) ->
  read_data Image_putdata Image_save data attr out ff lf q fr sf fo
  = mkrun (Raise match attr with
                 | None => UnboundLocalError
                 | Some _ => StructError
                 end) out [] [].
Proof.
  intros Hshort. unfold read_data. destruct attr as [a|].
  - rewrite read_width_and_height_short by (apply Hshort; reflexivity).
    reflexivity.
  - reflexivity.
Qed.

Lemma attribute_file_read_first_witness :
  read_data putdata_ok save_ok (Some ten_frames_file)
    (Some (repeat x00 38)) frame_3_present 0 (-1) 100 None 0 false
  = mkrun (Raise StructError) frame_3_present [] [].
Proof.
  apply (attribute_file_read_first putdata_ok save_ok (Some ten_frames_file)
           (Some (repeat x00 38)) frame_3_present 0 (-1) 100 None 0 false).
  intros a [= <-]. vm_compute. reflexivity.
Defined.

(** ** X14: the lines printed *)

(** X14: on readable files (data file below [2^53] bytes) [read_data]
    prints the file report, then one line for each index it reaches, in
    ascending order from 0: the skip line when the file of that index
    is in the directory, the saving line otherwise; then at most one
    error line.  With an image library that does not fail the lines are
    the report and one line for every index below the frame count. *)
Theorem printed_lines {image png : Type}
    (Image_putdata : Z * Z -> list Z -> result image)
    (Image_save : nat -> image -> result png)
    c a (out : gmap nat png) ff lf q fr sf fo :
  readable c a -> Z.of_nat (length c) < 2 ^ 53 ->
  let r := read_data Image_putdata Image_save (Some c) (Some a) out
             ff lf q fr sf fo in
  let report := MsgInfo (file_info_of c (width_of a) (height_of a)) in
  (exists k tail,
      (k <= frame_count c a)%nat
      /\ stdout r = report :: map (line_of out) (seq 0 k) ++ tail
      /\ (tail = [] \/ tail = [MsgIOError] \/ tail = [MsgValueError]))
  /\ ((forall sz frame, exists im, Image_putdata sz frame = Ok im) ->
      (forall i im, exists f, Image_save i im = Ok f) ->
      stdout r = report :: map (line_of out) (seq 0 (frame_count c a))).
Proof.
  intros Hr H53. cbv zeta.
  rewrite read_data_steps by assumption.
  destruct (frame_steps Image_putdata Image_save c (width_of a) (height_of a)
              (seq 0 (frame_count c a)) out []
              [MsgInfo (file_info_of c (width_of a) (height_of a))])
    as [[[out' dec'] log'] r] eqn:Hrun.
  destruct (frame_steps_log Image_putdata Image_save c _ _ out _
              (NoDup_seq 0 (frame_count c a)) _ _ _ _ _ _ _
              (fun j _ => eq_refl) Hrun) as (js & Hpre & -> & Hall).
  destruct (stdout_run_of_steps out' dec'
              ([MsgInfo (file_info_of c (width_of a) (height_of a))]
               ++ map (line_of out) js) r) as (tail & Hout & Htail & Hnone).
  rewrite Hout.
  split.
  - destruct (prefix_seq_0 js _ Hpre) as (k & Hk & ->).
    exists k, tail. split; [exact Hk|]. split; [|exact Htail].
    rewrite <- app_assoc. reflexivity.
  - intros Hput Hsave.
    destruct (frame_steps_total Image_putdata Image_save c _ _ out _ Hput Hsave
                (NoDup_seq 0 (frame_count c a)) _ _ _ _ _ _ _
                (fun j _ => eq_refl) Hrun) as (Hrn & _ & _).
    rewrite (Hall Hrn), (Hnone Hrn), app_nil_r. reflexivity.
Qed.

Lemma printed_lines_witness :
  let r := read_data putdata_ok (save_failing_at 5 OSError)
             (Some ten_frames_file) (Some attr_1_2) frame_3_present
             0 (-1) 100 None 0 false in
  let report :=
    MsgInfo (file_info_of ten_frames_file (width_of attr_1_2)
               (height_of attr_1_2)) in
  (exists k tail,
      (k <= frame_count ten_frames_file attr_1_2)%nat
      /\ stdout r = report :: map (line_of frame_3_present) (seq 0 k) ++ tail
      /\ (tail = [] \/ tail = [MsgIOError] \/ tail = [MsgValueError]))
  /\ ((forall sz frame, exists im, putdata_ok sz frame = Ok im) ->
      (forall i im, exists f, save_failing_at 5 OSError i im = Ok f) ->
      stdout r
      = report :: map (line_of frame_3_present)
                    (seq 0 (frame_count ten_frames_file attr_1_2))).
Proof.
  apply (printed_lines putdata_ok (save_failing_at 5 OSError)
           ten_frames_file attr_1_2 frame_3_present 0 (-1) 100 None 0 false).
  - unfold readable. vm_compute. repeat split; discriminate.
  - vm_compute. reflexivity.
Defined.

(** ** X15: a file written record by record *)



(** ** X16: one file name for each index *)

(** X16: the file names [f"{i:04d}.png"] that [read_data] tests and
    writes are different for different indices, also from 10000 on,
    where the index has more than four digits: no frame is skipped or
    overwritten because of the file of another frame. *)
Theorem image_filename_inj i j :
  Names.image_filename i = Names.image_filename j -> i = j.
Proof.
  intros Hname. apply append_inj_r in Hname.
  pose proof (format_04d_parse i) as Hi.
  rewrite Hname, format_04d_parse in Hi.
  congruence.
Qed.

Lemma image_filename_inj_witness : 1234%nat = 1234%nat.
Proof.
  apply (image_filename_inj 1234 1234). vm_compute. reflexivity.
Defined.
